(** * Zotero.RecognizePDF: the recognition queue of
      chrome/content/zotero/xpcom/recognizePDF.js

    A shallow embedding of the module: the row table, the pending queue and
    the listener table are an explicit state record; the asynchronous worker
    [_processQueue] is cut at its [await]s into resumable passes over that
    state; the per-item pipeline ([_processItem], [_recognize]) runs in a
    state-and-exception monad over the persistent store and the logs. *)

From stdpp Require Import base gmap list strings.

Open Scope string_scope.
Open Scope Z_scope.

(** ** JavaScript values *)

(** The primitive values that the code tests for truthiness. *)
Inductive JsVal :=
| JUndefined
| JNull
| JBool (b : bool)
| JNum (n : Z)
| JStr (s : string).

#[global] Instance JsVal_eq_dec : EqDecision JsVal.
Proof. solve_decision. Defined.

(** [ToBoolean]: what [if (v)], [!v], [&&] and [||] look at. *)
Definition truthy (v : JsVal) : bool :=
  match v with
  | JUndefined | JNull => false
  | JBool b => b
  | JNum n => negb (n =? 0)
  | JStr s => negb (String.eqb s "")
  end.

(** [a && b] returns an operand, not a boolean. *)
Definition js_and (a b : JsVal) : JsVal := if truthy a then b else a.

(** [s || ''] on a string. *)
Definition js_or_empty (s : string) : string :=
  if String.eqb s "" then "" else s.

(** [a === b] on primitive values. *)
Definition js_strict_eq (a b : JsVal) : bool := bool_decide (a = b).

(** ** Constants of the module (lines 27-33) *)

Definition OFFLINE_RECHECK_DELAY : Z := 60 * 1000.
Definition MAX_PAGES : Z := 5.

Definition ROW_QUEUED : Z := 1.
Definition ROW_PROCESSING : Z := 2.
Definition ROW_FAILED : Z := 3.
Definition ROW_SUCCEEDED : Z := 4.

(** ** Items *)

Record Creator := mkCreator {
  firstName : JsVal;
  lastName : JsVal;
  creatorType : string
}.

(** A [Zotero.Item] as far as this file reads and writes it.  Item ids are
    the integer keys of the store; an item that was never saved has a falsy
    id, written [0] here (no saved item has that key). *)
Record Item := mkItem {
  item_id : Z;
  itemType : string;
  libraryID : Z;
  parentItemID : option Z;
  attachmentContentType : JsVal;
  filePath : JsVal;
  fields : gmap string JsVal;
  creators : list Creator
}.

(** Modelled from the spec: [Zotero.Item.prototype.getField] is declared
    outside this file; the persistence contract gives items "field get/set".
    A field that is unset or not a string reads as the empty string. *)
Definition getField (it : Item) (name : string) : string :=
  match fields it !! name with
  | Some (JStr s) => s
  | _ => ""
  end.

(** Modelled from the spec: [Zotero.Item.prototype.setField], the "set" half
    of the same contract; it stores the value it is handed under the name it
    is handed. *)
Definition setField (name : string) (v : JsVal) (it : Item) : Item :=
  mkItem (item_id it) (itemType it) (libraryID it) (parentItemID it)
         (attachmentContentType it) (filePath it)
         (<[name := v]> (fields it)) (creators it).

Definition setCreators (cs : list Creator) (it : Item) : Item :=
  mkItem (item_id it) (itemType it) (libraryID it) (parentItemID it)
         (attachmentContentType it) (filePath it) (fields it) cs.

Definition set_libraryID (l : Z) (it : Item) : Item :=
  mkItem (item_id it) (itemType it) l (parentItemID it)
         (attachmentContentType it) (filePath it) (fields it) (creators it).

Definition set_parentID (p : Z) (it : Item) : Item :=
  mkItem (item_id it) (itemType it) (libraryID it) (Some p)
         (attachmentContentType it) (filePath it) (fields it) (creators it).

Definition set_item_id (i : Z) (it : Item) : Item :=
  mkItem i (itemType it) (libraryID it) (parentItemID it)
         (attachmentContentType it) (filePath it) (fields it) (creators it).

(** [new Zotero.Item(type)]: no id, no library, no fields yet. *)
Definition new_Item (type : string) : Item :=
  mkItem 0 type 0 None JUndefined JUndefined ∅ [].

(** [item.parentItemID] in a condition. *)
Definition has_parent (it : Item) : bool :=
  match parentItemID it with
  | Some p => negb (p =? 0)
  | None => false
  end.

(** ** Rows, listeners and the module state (lines 35-38) *)

Record Row := mkRow {
  row_id : Z;
  status : Z;
  fileName : string;
  message : string
}.

#[global] Instance Row_eq_dec : EqDecision Row.
Proof. solve_decision. Defined.

(** A listener is a function value; the embedding keeps a handle for it. *)
Definition Callback := nat.

(** What a listener is called with. *)
Inductive Payload :=
| PNone
| PRow (row : Row)
| PUpdate (id newStatus : Z) (msg : string)
| PDelete (id : Z).

(** One listener invocation: the event name it was registered under, the
    callback that was called, and its argument. *)
Record Fired := mkFired {
  fired_name : string;
  fired_callback : Callback;
  fired_arg : Payload
}.

Record State := mkState {
  _listeners : gmap string Callback;
  _rows : list Row;
  _queue : list Z;
  _queueProcessing : bool;
  (** history of the listener invocations made so far *)
  fired : list Fired
}.

Definition initial_state : State := mkState ∅ [] [] false [].

Definition set_listeners (l : gmap string Callback) (st : State) : State :=
  mkState l (_rows st) (_queue st) (_queueProcessing st) (fired st).
Definition set_rows (r : list Row) (st : State) : State :=
  mkState (_listeners st) r (_queue st) (_queueProcessing st) (fired st).
Definition set_queue (q : list Z) (st : State) : State :=
  mkState (_listeners st) (_rows st) q (_queueProcessing st) (fired st).
Definition set_queueProcessing (b : bool) (st : State) : State :=
  mkState (_listeners st) (_rows st) (_queue st) b (fired st).

(** [if (_listeners[name]) _listeners[name](arg)] *)
Definition fire (name : string) (arg : Payload) (st : State) : State :=
  match _listeners st !! name with
  | Some cb =>
      mkState (_listeners st) (_rows st) (_queue st) (_queueProcessing st)
              (fired st ++ [mkFired name cb arg])
  | None => st
  end.

(** Lines 45-55. *)
Definition addListener (name : string) (callback : Callback) (st : State) : State :=
  set_listeners (<[name := callback]> (_listeners st)) st.

Definition removeListener (name : string) (st : State) : State :=
  set_listeners (delete name (_listeners st)) st.

(** The first row whose id is [itemID], with its index: the three loops over
    [_rows] (lines 120, 156, 177) all stop at it. *)
Definition find_row (itemID : Z) (rows : list Row) : option (nat * Row) :=
  list_find (λ row, row_id row = itemID) rows.

(** Lines 176-189. *)
Definition _deleteRow (itemID : Z) (st : State) : State :=
  match find_row itemID (_rows st) with
  | Some (i, row) =>
      fire "rowdeleted" (PDelete (row_id row))
           (set_rows (delete i (_rows st)) st)
  | None => st
  end.

(** Lines 155-170. *)
Definition _updateRow (itemID : Z) (newStatus : Z) (msg : string) (st : State) : State :=
  match find_row itemID (_rows st) with
  | Some (i, row) =>
      let row' := mkRow (row_id row) newStatus (fileName row) msg in
      fire "rowupdated" (PUpdate (row_id row') newStatus (js_or_empty msg))
           (set_rows (<[i := row']> (_rows st)) st)
  | None => st
  end.

(** Lines 130-146: the part of [_addItem] after the scan. *)
Definition insert_row (item : Item) (st : State) : State :=
  let row := mkRow (item_id item) ROW_QUEUED (getField item "title") "" in
  let st1 := set_queue (item_id item :: _queue st) (set_rows (row :: _rows st) st) in
  let st2 := fire "rowadded" (PRow row) st1 in
  if bool_decide (length (_rows st2) = 1%nat)
  then fire "nonempty" PNone st2
  else st2.

(** Lines 119-147. *)
Definition _addItem (item : Item) (st : State) : State :=
  match find_row (item_id item) (_rows st) with
  | Some (_, row) =>
      if bool_decide (status row > ROW_PROCESSING)
      then insert_row item (_deleteRow (row_id row) st)
      else st
  | None => insert_row item st
  end.

(** Lines 83-112. *)
Definition getRows (st : State) : list Row := _rows st.
Definition getTotal (st : State) : nat := length (_rows st).
Definition getProcessedTotal (st : State) : nat :=
  length (filter (λ row, status row > ROW_PROCESSING) (_rows st)).

Definition cancel (st : State) : State :=
  fire "empty" PNone (set_rows [] (set_queue [] st)).

(** [_queue.shift()]: [undefined] on an empty array. *)
Definition shift (q : list Z) : option Z * list Z :=
  match q with
  | [] => (None, [])
  | x :: q' => (Some x, q')
  end.

(** ** Errors and the pipeline monad *)

(** [Zotero.Exception.Alert] carries the key of a localized string; every
    other error is a plain [Error] with its text. *)
Inductive Exn :=
| Alert (name : string)
| Error (msg : string).

(** [e instanceof Zotero.Exception.Alert] *)
Definition is_Alert (e : Exn) : bool :=
  match e with Alert _ => true | Error _ => false end.

Inductive Result (A : Type) :=
| Return (a : A)
| Throw (e : Exn).
Arguments Return {A} a.
Arguments Throw {A} e.

(** ** Extractor output and recognizer response *)

(** An entry of a page array of the extractor's JSON. *)
#[warnings="-register-all"]
Inductive Cell :=
| CNum (n : Z)
| CStr (s : string)
| CArr (l : list Cell).

(** A page is an array; [page[2]] holds its text. *)
Definition Page := list Cell.

Record ExtractedDocument := mkDoc { pages : list Page }.

(** [c.length] *)
Definition js_length (c : Cell) : JsVal :=
  match c with
  | CNum _ => JUndefined
  | CStr s => JNum (Z.of_nat (String.length s))
  | CArr l => JNum (Z.of_nat (length l))
  end.

Record Author := mkAuthor {
  author_firstName : JsVal;
  author_lastName : JsVal
}.

(** The properties of the recognizer's response that [_recognize] reads, one
    field per property name; [res_ISSN] and [res_issn] are the two distinct
    keys [ISSN] and [issn].  [res_authors = None] is a response without an
    [authors] array; an entry [None] of the array is a [null]. *)
Record RecognitionResult := mkRes {
  res_doi : JsVal;
  res_isbn : JsVal;
  res_title : JsVal;
  res_type : JsVal;
  res_authors : option (list (option Author));
  res_abstract : JsVal;
  res_year : JsVal;
  res_pages : JsVal;
  res_volume : JsVal;
  res_url : JsVal;
  res_issue : JsVal;
  res_ISSN : JsVal;
  res_issn : JsVal;
  res_container : JsVal;
  res_publisher : JsVal
}.

(** ** The store, the logs and the collaborators *)

Inductive Branch := ByDOI | ByISBN | ByTitle.

#[global] Instance Branch_eq_dec : EqDecision Branch.
Proof. solve_decision. Defined.

(** The calls to [Zotero.debug]. *)
Inductive DebugMsg :=
| DRunning (filePath : JsVal) (pages : Z)
| DGettingByDOI
| DGettingByISBN
| DTranslatedItems
| DItems (translatedItems : list Item)
| DCaught (e : Exn).

Record World := mkWorld {
  (** the persisted items, by id *)
  items : gmap Z Item;
  (** collection membership, as (collection id, item id) *)
  collectionItems : list (Z * Z);
  nextItemID : Z;
  (** bodies POSTed to the recognition service, oldest first *)
  requests : list ExtractedDocument;
  debugLog : list DebugMsg;
  (** [Zotero.logError] *)
  errorLog : list Exn;
  (** which resolver branches of [_recognize] were entered, oldest first *)
  entered : list Branch;
  (** the items whose [saveTx()] was started and never awaited (lines 387,
      413), oldest first; when such a save is done lies outside this file *)
  startedSaves : list Item;
  (** whether the file [recognizePDFcache.txt] of the temporary directory
      exists *)
  cacheFile : bool
}.

(** What the code calls but does not define: localization, methods of
    [Zotero.Item], the extractor binary, the recognition service, the
    identifier searches, and which store writes fail. *)
Record Env := mkEnv {
  getString : string -> string;
  (** the [message] of [new Zotero.Exception.Alert(name)] *)
  alertMessage : string -> string;
  isTopLevelItem : Item -> bool;
  (** the property [newItem.abstractNote] *)
  abstractNote : Item -> JsVal;
  (** lines 289-292 taken together: running the converter on a file,
      reading the cache file and parsing what it holds *)
  pdfToJSON : JsVal -> Z -> Result ExtractedDocument;
  (** when those lines throw: whether the cache file is there at that point
      (written by the converter and not yet removed by line 291) *)
  cacheFileAtFailure : JsVal -> Z -> bool;
  (** the POST to the service and [JSON.parse] of the reply;
      [Return None] is a falsy reply *)
  recognizer : ExtractedDocument -> Result (option RecognitionResult);
  searchDOI : JsVal -> Z -> Result (list Item);
  searchISBN : JsVal -> Result (list Item);
  addItemFails : Z -> Z -> bool;
  saveFails : Item -> bool
}.

Definition M (A : Type) : Type := World -> Result A * World.

Definition ret {A} (a : A) : M A := fun w => (Return a, w).
Definition throw {A} (e : Exn) : M A := fun w => (Throw e, w).
Definition bind {A B} (m : M A) (k : A -> M B) : M B :=
  fun w => match m w with
           | (Return a, w') => k a w'
           | (Throw e, w') => (Throw e, w')
           end.
(** [try { m } catch (e) { h e }] *)
Definition try_catch {A} (m : M A) (h : Exn -> M A) : M A :=
  fun w => match m w with
           | (Return a, w') => (Return a, w')
           | (Throw e, w') => h e w'
           end.
Definition lift {A} (r : Result A) : M A := fun w => (r, w).

Notation "'do' x <- m ; k" := (bind m (fun x => k))
  (at level 10, x name, m at level 100, k at level 200).
Notation "m ;; k" := (bind m (fun _ => k))
  (at level 100, k at level 200, right associativity).

Definition debug (d : DebugMsg) : M unit := fun w =>
  (Return tt,
   mkWorld (items w) (collectionItems w) (nextItemID w) (requests w)
           (debugLog w ++ [d]) (errorLog w) (entered w) (startedSaves w) (cacheFile w)).

Definition logError (e : Exn) : M unit := fun w =>
  (Return tt,
   mkWorld (items w) (collectionItems w) (nextItemID w) (requests w)
           (debugLog w) (errorLog w ++ [e]) (entered w) (startedSaves w) (cacheFile w)).

Definition enter (b : Branch) : M unit := fun w =>
  (Return tt,
   mkWorld (items w) (collectionItems w) (nextItemID w) (requests w)
           (debugLog w) (errorLog w) (entered w ++ [b]) (startedSaves w) (cacheFile w)).

Definition post (json : ExtractedDocument) : M unit := fun w =>
  (Return tt,
   mkWorld (items w) (collectionItems w) (nextItemID w) (requests w ++ [json])
           (debugLog w) (errorLog w) (entered w) (startedSaves w) (cacheFile w)).

(** [newItem.saveTx()] whose promise is dropped (lines 387, 413): the save
    is started and the code goes on at once.  The item is as it was, without
    an id if it had none, and the store does not hold it yet. *)
Definition saveTx_unawaited (it : Item) : M Item := fun w =>
  (Return it,
   mkWorld (items w) (collectionItems w) (nextItemID w) (requests w)
           (debugLog w) (errorLog w) (entered w) (startedSaves w ++ [it])
           (cacheFile w)).

(** The cache file after something has written or removed it. *)
Definition set_cacheFile (there : bool) : M unit := fun w =>
  (Return tt,
   mkWorld (items w) (collectionItems w) (nextItemID w) (requests w)
           (debugLog w) (errorLog w) (entered w) (startedSaves w) there).

(** [if (cacheFile.exists()) cacheFile.remove(false)] (lines 279-281) *)
Definition remove_cacheFile_if_there : M unit := set_cacheFile false.

(** [cacheFile.remove(false)] (lines 291, 296): removing a file that is not
    there fails. *)
Definition remove_cacheFile : M unit := fun w =>
  if cacheFile w then set_cacheFile false w
  else (Throw (Error "NS_ERROR_FILE_NOT_FOUND"), w).

(** [Zotero.Items.getAsync(itemID)] *)
Definition getAsync (itemID : Z) : M (option Item) := fun w =>
  (Return (items w !! itemID), w).

(** [item.getCollections()] *)
Definition getCollections (it : Item) : M (list Z) := fun w =>
  (Return (map fst (filter (λ ci, snd ci = item_id it) (collectionItems w))), w).

(** Modelled from the spec: [Zotero.DB.executeTransaction] is declared
    outside this file; the persistence contract describes it as "a
    transactional save that either fully commits or fully rolls back a batch
    of related mutations".  When the body throws, the store is put back as it
    was when the transaction began and the error is rethrown; the logs are not
    part of the store. *)
Definition executeTransaction {A} (body : M A) : M A := fun w =>
  match body w with
  | (Return a, w') => (Return a, w')
  | (Throw e, w') =>
      (Throw e,
       mkWorld (items w) (collectionItems w) (nextItemID w) (requests w')
               (debugLog w') (errorLog w') (entered w') (startedSaves w')
               (cacheFile w'))
  end.

Section Pipeline.
Context (E : Env).

(** [e.message] as line 229 reads it. *)
Definition exn_message (e : Exn) : string :=
  match e with
  | Alert name => alertMessage E name
  | Error msg => msg
  end.

(** Lines 62-66. *)
Definition canRecognize (item : Item) : JsVal :=
  js_and
    (js_and (attachmentContentType item)
            (JBool (js_strict_eq (attachmentContentType item) (JStr "application/pdf"))))
    (JBool (isTopLevelItem E item)).

(** [item.save()] inside a transaction, and the write half of [saveTx]: a
    first save gives the item its id. *)
Definition save (it : Item) : M Item := fun w =>
  if saveFails E it then (Throw (Error "save failed"), w)
  else
    let fresh := item_id it =? 0 in
    let it' := if fresh then set_item_id (nextItemID w) it else it in
    (Return it',
     mkWorld (<[item_id it' := it']> (items w)) (collectionItems w)
             (if fresh then nextItemID w + 1 else nextItemID w)
             (requests w) (debugLog w) (errorLog w) (entered w)
             (startedSaves w) (cacheFile w)).

(** [await newItem.saveTx()] *)
Definition saveTx (it : Item) : M Item := executeTransaction (save it).

(** [collection.addItem(id)] *)
Definition collection_addItem (collection id : Z) : M unit := fun w =>
  if addItemFails E collection id then (Throw (Error "addItem failed"), w)
  else
    (Return tt,
     mkWorld (items w)
             (if bool_decide ((collection, id) ∈ collectionItems w)
              then collectionItems w
              else collectionItems w ++ [(collection, id)])
             (nextItemID w) (requests w) (debugLog w) (errorLog w) (entered w)
             (startedSaves w) (cacheFile w)).

(** Lines 276-299.  On the way through the [try] the cache file is read and
    removed; in the handler it is removed again, outside any [try], before
    the alert is thrown. *)
Definition extractJSON (path : JsVal) (n : Z) : M ExtractedDocument :=
  remove_cacheFile_if_there ;;
  debug (DRunning path n) ;;
  match pdfToJSON E path n with
  | Return json => set_cacheFile false ;; ret json
  | Throw e =>
      set_cacheFile (cacheFileAtFailure E path n) ;;
      logError e ;;
      remove_cacheFile ;;
      throw (Alert "recognizePDF.couldNotRead")
  end.

(** Lines 305-323. *)
Definition _promiseTranslate (search : Result (list Item)) : M Item :=
  do newItems <- lift search;
  match newItems with
  | first :: _ => ret first
  | [] => throw (Error "No items found")
  end.

(** Lines 325-349. *)
Definition _query (json : ExtractedDocument) : M (option RecognitionResult) :=
  post json ;;
  match recognizer E json with
  | Return res => ret res
  | Throw e => logError e ;; throw (Error "Request error")
  end.

(** Lines 360-366: the loop that counts the pages with text. *)
Fixpoint count_text_pages (ps : list Page) (containingTextPages : Z) : Result Z :=
  match ps with
  | [] => Return containingTextPages
  | page :: rest =>
      match page !! 2%nat with
      | Some text =>
          count_text_pages rest
            (if truthy (js_length text)
             then containingTextPages + 1
             else containingTextPages)
      | None => Throw (Error "TypeError: page[2] is undefined")
      end
  end.

(** [if (c) newItem.setField(name, v)] *)
Definition setField_if (c : JsVal) (name : string) (v : JsVal) (it : Item) : Item :=
  if truthy c then setField name v it else it.

(** [if (!newItem.abstractNote && res.abstract) ...] (lines 384, 410) *)
Definition backfill_abstract (res : RecognitionResult) (newItem : Item) : Item :=
  if negb (truthy (abstractNote E newItem)) && truthy (res_abstract res)
  then setField "abstractNote" (res_abstract res) newItem
  else newItem.

(** Lines 377-393: [Some] is the item returned from inside the [try],
    [None] falls out of the [if]. *)
Definition resolve_by_DOI (res : RecognitionResult) (lib : Z) : M (option Item) :=
  enter ByDOI ;;
  debug DGettingByDOI ;;
  try_catch
    (do newItem <- _promiseTranslate (searchDOI E (res_doi res) lib);
     do newItem <- saveTx_unawaited (backfill_abstract res newItem);
     ret (Some newItem))
    (fun e => debug (DCaught e) ;; ret None).

(** Lines 395-420. *)
Definition resolve_by_ISBN (res : RecognitionResult) (lib : Z) : M (option Item) :=
  enter ByISBN ;;
  debug DGettingByISBN ;;
  try_catch
    (do translatedItems <- lift (searchISBN E (res_isbn res));
     debug DTranslatedItems ;;
     debug (DItems translatedItems) ;;
     match translatedItems with
     | first :: _ =>
         let newItem := set_libraryID lib first in
         do newItem <- saveTx_unawaited (backfill_abstract res newItem);
         ret (Some newItem)
     | [] => ret None
     end)
    (fun e => debug (DCaught e) ;; ret None).

(** Lines 424-460: the item that the title branch builds before saving it. *)
Definition title_item (res : RecognitionResult) (authors : list Author) : Item :=
  let type :=
    if js_strict_eq (res_type res) (JStr "book-chapter")
    then "bookSection" else "journalArticle" in
  let newItem := new_Item type in
  let newItem := setField "title" (res_title res) newItem in
  let creators :=
    map (fun author => mkCreator (author_firstName author) (author_lastName author) "author")
        authors in
  let newItem := setCreators creators newItem in
  let newItem := setField_if (res_abstract res) "abstractNote" (res_abstract res) newItem in
  let newItem := setField_if (res_year res) "date" (res_year res) newItem in
  let newItem := setField_if (res_pages res) "pages" (res_pages res) newItem in
  let newItem := setField_if (res_volume res) "volume" (res_volume res) newItem in
  let newItem := setField_if (res_url res) "url" (res_url res) newItem in
  let newItem :=
    if String.eqb type "journalArticle" then
      let newItem := setField_if (res_issue res) "issue" (res_issue res) newItem in
      let newItem := setField_if (res_ISSN res) "issn" (res_issn res) newItem in
      setField_if (res_container res) "publicationTitle" (res_container res) newItem
    else if String.eqb type "bookSection" then
      let newItem := setField_if (res_container res) "bookTitle" (res_container res) newItem in
      setField_if (res_publisher res) "publisher" (res_publisher res) newItem
    else newItem in
  setField "libraryCatalog" (JStr "Zotero") newItem.

(** Lines 434-440: reading [author.firstName] stops the loop at the first
    entry that is [null]. *)
Fixpoint read_authors (entries : list (option Author)) : Result (list Author) :=
  match entries with
  | [] => Return []
  | Some author :: rest =>
      match read_authors rest with
      | Return authors => Return (author :: authors)
      | Throw e => Throw e
      end
  | None :: _ => Throw (Error "TypeError: author is null")
  end.

(** Lines 422-464. *)
Definition resolve_by_title (res : RecognitionResult) : M (option Item) :=
  enter ByTitle ;;
  match res_authors res with
  | None => throw (Error "TypeError: res.authors is not iterable")
  | Some entries =>
      do authors <- lift (read_authors entries);
      do newItem <- saveTx (title_item res authors);
      ret (Some newItem)
  end.

(** Lines 377-466: the three [if]s in a row. *)
Definition resolve (res : RecognitionResult) (lib : Z) : M (option Item) :=
  do byDOI <-
    (if truthy (res_doi res) then resolve_by_DOI res lib else ret None);
  match byDOI with
  | Some newItem => ret (Some newItem)
  | None =>
      do byISBN <-
        (if truthy (res_isbn res) then resolve_by_ISBN res lib else ret None);
      match byISBN with
      | Some newItem => ret (Some newItem)
      | None =>
          if truthy (res_title res) then resolve_by_title res else ret None
      end
  end.

(** Lines 356-467. *)
Definition _recognize (item : Item) : M (option Item) :=
  do json <- extractJSON (filePath item) MAX_PAGES;
  do containingTextPages <- lift (count_text_pages (pages json) 0);
  if containingTextPages =? 0 then throw (Alert "recognizePDF.noOCR")
  else
    let lib := libraryID item in
    do res <- _query json;
    match res with
    | None => ret None
    | Some res => resolve res lib
    end.

(** Lines 254-257. *)
Fixpoint addToCollections (itemCollections : list Z) (newID : Z) : M unit :=
  match itemCollections with
  | [] => ret tt
  | itemCollection :: rest =>
      collection_addItem itemCollection newID ;;
      addToCollections rest newID
  end.

(** Lines 253-262: the function handed to [executeTransaction]. *)
Definition materialize (item newItem : Item) (itemCollections : list Z) : M unit :=
  addToCollections itemCollections (item_id newItem) ;;
  do _ <- save (set_parentID (item_id newItem) item);
  ret tt.

(** Lines 243-268. *)
Definition _processItem (itemID : Z) : M (option Item) :=
  do found <- getAsync itemID;
  match found with
  | None => throw (Alert "recognizePDF.fileNotFound")
  | Some item =>
      if has_parent item then throw (Alert "recognizePDF.fileNotFound")
      else
        do newItem <- _recognize item;
        match newItem with
        | Some newItem =>
            do itemCollections <- getCollections item;
            executeTransaction (materialize item newItem itemCollections) ;;
            ret (Some newItem)
        | None => ret None
        end
  end.

End Pipeline.

(** ** The worker (lines 195-236) *)

(** Where a call of [_processQueue] is suspended. *)
Inductive LoopPC :=
| AtSchema            (** line 196: [await Zotero.Schema.schemaUpdatePromise] *)
| AtDelay (ms : Z)    (** line 203: [await Zotero.Promise.delay(ms)] *)
| AtItem (itemID : Z) (** line 213: [await _processItem(itemID)] *).

(** A call is inside the [while] loop once it is past line 199. *)
Definition in_loop (pc : LoopPC) : bool :=
  match pc with
  | AtSchema => false
  | AtDelay _ | AtItem _ => true
  end.

(** [!itemID] for what [shift] returned. *)
Definition no_id (itemID : option Z) : bool :=
  match itemID with
  | None => true
  | Some n => n =? 0
  end.

(** The listener invocation that [fire] makes under a listener table. *)
Definition emit (l : gmap string Callback) (name : string) (arg : Payload) : list Fired :=
  match l !! name with
  | Some cb => [mkFired name cb arg]
  | None => []
  end.

(** Lines 72-75: the loop of [recognizeItems]. *)
Definition enqueue_all (its : list Item) (st : State) : State :=
  foldl (fun st item => _addItem item st) st its.

Section Worker.
Context (E : Env).

(** Lines 201-210: from the top of the [while] body to the next [await], or
    out of the loop.  [offline] is what [Zotero.HTTP.browserIsOffline()]
    answers this time. *)
Definition loop_head (offline : bool) (st : State) : State * option LoopPC :=
  if offline then (st, Some (AtDelay OFFLINE_RECHECK_DELAY))
  else
    let '(itemID, q) := shift (_queue st) in
    let st := set_queue q st in
    match itemID with
    | Some itemID =>
        if no_id (Some itemID) then (set_queueProcessing false st, None)
        else
          (_updateRow itemID ROW_PROCESSING (getString E "recognizePDF.processing") st,
           Some (AtItem itemID))
    | None => (set_queueProcessing false st, None)
    end.

(** The row message of line 228. *)
Definition failure_message (e : Exn) : string :=
  if is_Alert e then exn_message E e else getString E "recognizePDF.error".

(** Lines 213-232: what happens to the row, and to the error log, when the
    pipeline of [itemID] has settled with [r]. *)
Definition settle (itemID : Z) (r : Result (option Item)) (st : State) (w : World)
  : State * World :=
  match r with
  | Return (Some newItem) =>
      (_updateRow itemID ROW_SUCCEEDED (getField newItem "title") st, w)
  | Return None =>
      (_updateRow itemID ROW_FAILED (getString E "recognizePDF.noMatches") st, w)
  | Throw e =>
      (_updateRow itemID ROW_FAILED (failure_message e) st, snd (logError e w))
  end.

(** One pass of a suspended call of [_processQueue]: from the [await] it
    sits at to the next one ([Some]) or to its end ([None]). *)
Definition resume (offline : bool) (pc : LoopPC) (st : State) (w : World)
  : State * World * option LoopPC :=
  match pc with
  | AtSchema =>
      if _queueProcessing st then (st, w, None)
      else
        let '(st', next) := loop_head offline (set_queueProcessing true st) in
        (st', w, next)
  | AtDelay _ =>
      let '(st', next) := loop_head offline st in
      (st', w, next)
  | AtItem itemID =>
      let '(r, w') := _processItem E itemID w in
      let '(st', w'') := settle itemID r st w' in
      let '(st'', next) := loop_head offline st' in
      (st'', w'', next)
  end.

(** A call of [_processQueue] running alone: [offline] holds the answers of
    [browserIsOffline] at the successive passes.  The third component lists
    the ids taken from the queue, in the order they were taken. *)
Fixpoint run_alone (offline : list bool) (pc : LoopPC) (st : State) (w : World)
  : State * World * option LoopPC * list Z :=
  match offline with
  | [] => (st, w, Some pc, [])
  | o :: rest =>
      match resume o pc st w with
      | (st', w', Some pc') =>
          let '(st'', w'', last, taken) := run_alone rest pc' st' w' in
          (st'', w'', last,
           match pc' with AtItem itemID => itemID :: taken | _ => taken end)
      | (st', w', None) => (st', w', None, [])
      end
  end.

(** ** The module in its event loop *)

(** The module state, the store, and the calls of [_processQueue] that are
    waiting at an [await]. *)
Record Sys := mkSys {
  module : State;
  world : World;
  tasks : list LoopPC
}.

Definition option_to_list {A} (o : option A) : list A :=
  match o with Some a => [a] | None => [] end.

(** A turn of the event loop: a caller runs one public function to its end
    (for [recognizeItems], up to the first [await] of the [_processQueue] it
    starts), or one waiting call of [_processQueue] makes one pass. *)
Inductive step : Sys -> Sys -> Prop :=
| step_addListener name callback s :
    step s (mkSys (addListener name callback (module s)) (world s) (tasks s))
| step_removeListener name s :
    step s (mkSys (removeListener name (module s)) (world s) (tasks s))
| step_recognizeItems its s :
    step s (mkSys (enqueue_all its (module s)) (world s) (tasks s ++ [AtSchema]))
| step_cancel s :
    step s (mkSys (cancel (module s)) (world s) (tasks s))
| step_resume offline (before after : list LoopPC) pc s st' w' next :
    tasks s = (before ++ pc :: after)%list ->
    resume offline pc (module s) (world s) = (st', w', next) ->
    step s (mkSys st' w' (before ++ option_to_list next ++ after)%list).

Definition reachable (s : Sys) : Prop :=
  exists w, rtc step (mkSys initial_state w []) s.

(** How many calls of [_processQueue] are inside the loop. *)
Definition active_loops (s : Sys) : nat :=
  length (filter (fun pc => in_loop pc = true) (tasks s)).

End Worker.

(** The worker keeps this: the calls inside the loop are one when the flag
    is set and none when it is clear. *)
Definition single_flight (s : Sys) : Prop :=
  active_loops s = if _queueProcessing (module s) then 1%nat else 0%nat.

(** [page[2]] is there and has length 0. *)
Definition page_text_empty (page : Page) : bool :=
  match page !! 2%nat with
  | Some text => bool_decide (js_length text = JNum 0)
  | None => false
  end.

(** ** Sample data for the worked instances *)

Definition pdfA : Item :=
  mkItem 1 "attachment" 1 None (JStr "application/pdf") (JStr "/storage/a.pdf")
         {["title" := JStr "a.pdf"]} [].

Definition pdfB : Item :=
  mkItem 2 "attachment" 1 None (JStr "application/pdf") (JStr "/storage/b.pdf")
         {["title" := JStr "b.pdf"]} [].

Definition text_page : Page := [CNum 612; CNum 792; CArr [CStr "A study of queues"]].
Definition blank_page : Page := [CNum 612; CNum 792; CArr []].

Definition text_doc : ExtractedDocument := mkDoc [text_page; blank_page].
Definition scanned_doc : ExtractedDocument := mkDoc [blank_page; blank_page].

(** A response with the given DOI, title, [ISSN] and [issn], an empty author
    list and nothing else. *)
Definition candidate (doi title ISSN issn : JsVal) : RecognitionResult :=
  mkRes doi JUndefined title JUndefined (Some []) JUndefined JUndefined JUndefined
        JUndefined JUndefined JUndefined ISSN issn JUndefined JUndefined.

(** Collaborators that extract [doc], answer every query with [res], fail
    every DOI search unless [found] holds an item, find no ISBN, and fail the
    store writes that [addFails] and [svFails] pick. *)
Definition env_with (doc : ExtractedDocument) (res : option RecognitionResult)
    (found : list Item) (addFails : Z -> Z -> bool) (svFails : Item -> bool) : Env :=
  mkEnv (fun key => key) (fun key => key)
        (fun it => negb (has_parent it))
        (fun it => default JUndefined (fields it !! "abstractNote"))
        (fun _ _ => Return doc)
        (fun _ _ => true)
        (fun _ => Return res)
        (fun _ _ => match found with
                    | [] => Throw (Error "DOI lookup failed")
                    | _ => Return found
                    end)
        (fun _ => Return [])
        addFails svFails.

(** A store with the two attachments, [pdfA] filed in collections 7 and 8. *)
Definition world0 : World :=
  mkWorld {[1 := pdfA; 2 := pdfB]} [(7, 1); (8, 1)] 100 [] [] [] [] [] false.

Definition listening : State :=
  mkState {["rowadded" := 10%nat; "rowupdated" := 11%nat; "rowdeleted" := 12%nat;
            "nonempty" := 13%nat; "empty" := 14%nat]} [] [] false [].

(** ** Notions used by the further properties *)

(** [page[2].length] is truthy: the page counts in the loop of line 362. *)
Definition has_text (page : Page) : bool :=
  match page !! 2%nat with
  | Some text => truthy (js_length text)
  | None => false
  end.

(** The id whose pipeline a suspended call is waiting for. *)
Definition in_flight (pc : LoopPC) : list Z :=
  match pc with
  | AtItem itemID => [itemID]
  | AtSchema | AtDelay _ => []
  end.

(** A row that [getProcessedTotal] counts (line 100). *)
Definition processed (row : Row) : Prop := status row > ROW_PROCESSING.

(** The four status constants. *)
Definition known_status (row : Row) : Prop :=
  status row = ROW_QUEUED \/ status row = ROW_PROCESSING \/
  status row = ROW_FAILED \/ status row = ROW_SUCCEEDED.

(** What every reachable row table and queue satisfy: one row per id, a
    status out of the four constants, and a row for every queued id. *)
Definition table_ok (st : State) : Prop :=
  NoDup (map row_id (_rows st)) /\
  Forall known_status (_rows st) /\
  (forall id, id ∈ _queue st -> id ∈ map row_id (_rows st)).

(** A step of the pipeline that sends nothing to the recognition service. *)
Definition posts_nothing {A} (m : M A) : Prop :=
  forall w, requests (m w).2 = requests w.

(** * Properties *)

(** ** Helper facts about the monad and the row table *)

Lemma js_or_empty_id (s : string) : js_or_empty s = s.
Proof.
  unfold js_or_empty. destruct (String.eqb s "") eqn:Hs; [|done].
  by apply String.eqb_eq in Hs.
Qed.

Lemma fire_emit name arg st :
  fire name arg st =
  mkState (_listeners st) (_rows st) (_queue st) (_queueProcessing st)
          (fired st ++ emit (_listeners st) name arg).
Proof.
  unfold fire, emit. destruct (_listeners st !! name); [done|].
  rewrite app_nil_r. by destruct st.
Qed.

(** ** C10 *)

(** C10: [canRecognize(item)] returns [true] exactly when the item's
    attachment content type is the string 'application/pdf' and
    [item.isTopLevelItem()] holds.  The function takes the item alone: it is
    given no queue, row or listener state and returns none. *)
Theorem canRecognize_true_iff (E : Env) (item : Item) :
  canRecognize E item = JBool true <->
  attachmentContentType item = JStr "application/pdf" /\ isTopLevelItem E item = true.
Proof.
  unfold canRecognize, js_and, js_strict_eq. split.
  - destruct (truthy (attachmentContentType item)) eqn:Ht.
    + case_bool_decide as Hpdf; simpl.
      * by intros [= ->].
      * intros [=].
    + rewrite Ht. intros H. rewrite H in Ht. discriminate Ht.
  - intros [-> ->]. reflexivity.
Qed.

(** ** C1 *)

Lemma find_row_None itemID rows :
  find_row itemID rows = None <-> itemID ∉ map row_id rows.
Proof.
  unfold find_row. rewrite list_find_None, Forall_forall.
  rewrite list_elem_of_fmap. split.
  - intros H [row [-> Hin]]. by apply (H row).
  - intros H row Hin Heq. apply H. by exists row.
Qed.

(** Enqueuing ids that have no row puts the last one at the head of the
    queue: the queue is the list of ids in reverse order of arrival. *)
Lemma enqueue_all_fresh its st :
  NoDup (map item_id its) ->
  (forall it, it ∈ its -> item_id it ∉ map row_id (_rows st)) ->
  _queue (enqueue_all its st) = (rev (map item_id its) ++ _queue st)%list /\
  map row_id (_rows (enqueue_all its st)) =
    (rev (map item_id its) ++ map row_id (_rows st))%list.
Proof.
  revert st. induction its as [|it its IH]; intros st Hnd Hfresh; [done|].
  apply NoDup_cons in Hnd as [Hnotin Hnd].
  assert (Hit : find_row (item_id it) (_rows st) = None).
  { apply find_row_None, Hfresh. by left. }
  assert (Hq : _queue (_addItem it st) = item_id it :: _queue st /\
               map row_id (_rows (_addItem it st)) = item_id it :: map row_id (_rows st)).
  { unfold _addItem. rewrite Hit. unfold insert_row.
    rewrite !fire_emit. case_bool_decide; rewrite ?fire_emit; done. }
  destruct Hq as [Hq Hr].
  change (enqueue_all (it :: its) st) with (enqueue_all its (_addItem it st)).
  destruct (IH (_addItem it st) Hnd) as [IHq IHr].
  { intros it' Hin. rewrite Hr. intros [Heq|Hold]%elem_of_cons.
    - apply Hnotin. rewrite <- Heq. by apply list_elem_of_fmap_2.
    - apply (Hfresh it'); [by right|done]. }
  rewrite IHq, IHr, Hq, Hr. simpl.
  rewrite <- !app_assoc. done.
Qed.

(** C1 (the code takes the newest id first): [pdfA] is enqueued before
    [pdfB], the queue then reads [2; 1], and the worker, online throughout,
    takes the id of [pdfB] first and the id of [pdfA] second. *)
Theorem newest_enqueued_is_taken_first :
  let E := env_with text_doc None [] (fun _ _ => false) (fun _ => false) in
  let st := enqueue_all [pdfA; pdfB] initial_state in
  _queue st = [2; 1] /\
  snd (run_alone E [false; false; false] AtSchema st world0) = [2; 1].
Proof. vm_compute. done. Qed.

(** ** C9 *)

Lemma fields_setField name v it key :
  fields (setField name v it) !! key =
  if decide (name = key) then Some v else fields it !! key.
Proof. unfold setField. simpl. apply lookup_insert. Qed.

Lemma fields_setField_if c name v it key :
  fields (setField_if c name v it) !! key =
  if truthy c && bool_decide (name = key) then Some v else fields it !! key.
Proof.
  unfold setField_if. destruct (truthy c); [|done].
  rewrite fields_setField. cbn [andb]. by case_bool_decide; case_decide.
Qed.

Lemma itemType_setField name v it : itemType (setField name v it) = itemType it.
Proof. done. Qed.

Lemma itemType_setField_if c name v it :
  itemType (setField_if c name v it) = itemType it.
Proof. unfold setField_if. by destruct (truthy c). Qed.

Ltac item_fields :=
  repeat first
    [ rewrite fields_setField
    | rewrite fields_setField_if
    | rewrite itemType_setField
    | rewrite itemType_setField_if ].

(** What the title branch stores under [issn] for a journal article: the
    value of the response's [issn] key, and only when its [ISSN] key is
    truthy. *)
Lemma title_item_issn res authors :
  res_type res <> JStr "book-chapter" ->
  itemType (title_item res authors) = "journalArticle" /\
  fields (title_item res authors) !! "issn" =
    (if truthy (res_ISSN res) then Some (res_issn res) else None) /\
  fields (title_item res authors) !! "ISSN" = None.
Proof.
  intros Htype. unfold title_item, js_strict_eq.
  rewrite bool_decide_eq_false_2 by done. simpl String.eqb. cbv iota.
  item_fields. split; [done|].
  change (fields (setCreators ?cs ?it)) with (fields it).
  item_fields.
  repeat (case_decide; [discriminate|]).
  repeat (rewrite bool_decide_eq_false_2 by discriminate).
  rewrite !andb_false_r, bool_decide_eq_true_2, andb_true_r by done.
  split; [|done]. by destruct (truthy (res_ISSN res)).
Qed.

Lemma no_field_holds (m : gmap string JsVal) (v : JsVal) :
  Forall (fun kv => kv.2 <> v) (map_to_list m) ->
  forall key, m !! key <> Some v.
Proof.
  intros Hall key Hkey. apply elem_of_map_to_list in Hkey.
  rewrite Forall_forall in Hall. by apply (Hall _ Hkey).
Qed.

(** C9 (the ISSN is lost): a journal-article candidate that supplies its
    ISSN under the key [ISSN] gets the field [issn] set to [undefined], since
    the value is read from the other key [issn]; one that supplies it under
    [issn] gets no field at all, since the guard reads [ISSN].  In neither
    item does any field hold the candidate's ISSN. *)
Theorem title_branch_loses_ISSN :
  let upper :=
    title_item (candidate JUndefined (JStr "A paper") (JStr "1234-5678") JUndefined) [] in
  let lower :=
    title_item (candidate JUndefined (JStr "A paper") JUndefined (JStr "1234-5678")) [] in
  (itemType upper = "journalArticle" /\
   fields upper !! "issn" = Some JUndefined /\
   forall key, fields upper !! key <> Some (JStr "1234-5678")) /\
  (itemType lower = "journalArticle" /\
   fields lower !! "issn" = None /\
   forall key, fields lower !! key <> Some (JStr "1234-5678")).
Proof.
  split; (split; [reflexivity|split; [reflexivity|]]);
    apply no_field_holds; vm_compute;
    repeat (constructor; [intros [=]|]); constructor.
Qed.

(** ** C3 *)

Lemma find_row_Some itemID rows i row :
  find_row itemID rows = Some (i, row) ->
  rows !! i = Some row /\ row_id row = itemID.
Proof. unfold find_row. intros H. apply list_find_Some in H. tauto. Qed.

Lemma insert_row_eq item st :
  insert_row item st =
  let fresh := mkRow (item_id item) ROW_QUEUED (getField item "title") "" in
  mkState (_listeners st) (fresh :: _rows st) (item_id item :: _queue st)
          (_queueProcessing st)
          (fired st ++ emit (_listeners st) "rowadded" (PRow fresh)
             ++ (if bool_decide (_rows st = [])
                 then emit (_listeners st) "nonempty" PNone else []))%list.
Proof.
  unfold insert_row. rewrite !fire_emit. simpl.
  destruct (_rows st) as [|r rows]; simpl.
  - by rewrite <- app_assoc.
  - by rewrite app_nil_r.
Qed.

Lemma _deleteRow_eq itemID st i row :
  find_row itemID (_rows st) = Some (i, row) ->
  _deleteRow itemID st =
  mkState (_listeners st) (delete i (_rows st)) (_queue st) (_queueProcessing st)
          (fired st ++ emit (_listeners st) "rowdeleted" (PDelete itemID)).
Proof.
  intros Hfind. unfold _deleteRow. rewrite Hfind, fire_emit. simpl.
  apply find_row_Some in Hfind as [_ ->]. done.
Qed.

Lemma _updateRow_eq itemID newStatus msg st i row :
  find_row itemID (_rows st) = Some (i, row) ->
  _updateRow itemID newStatus msg st =
  mkState (_listeners st)
          (<[i := mkRow itemID newStatus (fileName row) msg]> (_rows st))
          (_queue st) (_queueProcessing st)
          (fired st ++ emit (_listeners st) "rowupdated" (PUpdate itemID newStatus msg)).
Proof.
  intros Hfind. unfold _updateRow. rewrite Hfind, fire_emit. simpl.
  rewrite js_or_empty_id. apply find_row_Some in Hfind as [_ ->]. done.
Qed.

Lemma _updateRow_absent itemID newStatus msg st :
  find_row itemID (_rows st) = None -> _updateRow itemID newStatus msg st = st.
Proof. intros Hfind. unfold _updateRow. by rewrite Hfind. Qed.

Lemma NoDup_delete_at (ids : list Z) i x :
  NoDup ids -> ids !! i = Some x -> NoDup (x :: delete i ids).
Proof.
  intros Hnd Hi. rewrite <- (take_drop_middle ids i x Hi) in Hnd.
  rewrite delete_take_drop.
  apply NoDup_app in Hnd as (Htake & Hdisj & Hdrop).
  apply NoDup_cons in Hdrop as [Hx Hdrop].
  apply NoDup_cons. split.
  - rewrite elem_of_app. intros [Hin|Hin]; [|done].
    apply (Hdisj x Hin). by left.
  - apply NoDup_app. split; [done|]. split; [|done].
    intros y Hy Hy'. apply (Hdisj y Hy). by right.
Qed.

Lemma map_delete_at {A B} (f : A -> B) (l : list A) i :
  map f (delete i l) = delete i (map f l).
Proof.
  revert i. induction l as [|a l IH]; intros [|i]; simpl; try done.
  by rewrite IH.
Qed.

Lemma _addItem_NoDup item st :
  NoDup (map row_id (_rows st)) -> NoDup (map row_id (_rows (_addItem item st))).
Proof.
  intros Hnd. unfold _addItem.
  destruct (find_row (item_id item) (_rows st)) as [[i row]|] eqn:Hfind.
  - case_bool_decide; [|done].
    pose proof (find_row_Some _ _ _ _ Hfind) as [Hi Hid].
    rewrite Hid, (_deleteRow_eq _ _ _ _ Hfind), insert_row_eq. simpl.
    rewrite map_delete_at. apply NoDup_delete_at; [done|].
    change (map row_id (_rows st)) with (row_id <$> _rows st).
    by rewrite list_lookup_fmap, Hi, <- Hid.
  - rewrite insert_row_eq. simpl. apply NoDup_cons. split; [|done].
    by apply find_row_None.
Qed.

(** C3: enqueuing never makes two rows share an id; enqueuing an id whose
    row is Queued or Processing changes nothing (rows, queue, listener
    invocations); enqueuing an id whose row is Failed or Succeeded removes
    that row, calling the [rowdeleted] listener, then puts a fresh Queued row
    at the front and the id at the head of the queue, calling the [rowadded]
    listener (and [nonempty] when the table had no other row).  A listener is
    called when one is registered under the name. *)
Theorem enqueue_keeps_one_row_per_id :
  (forall its st,
     NoDup (map row_id (_rows st)) ->
     NoDup (map row_id (_rows (enqueue_all its st)))) /\
  (forall item st i row,
     find_row (item_id item) (_rows st) = Some (i, row) ->
     status row = ROW_QUEUED \/ status row = ROW_PROCESSING ->
     _addItem item st = st) /\
  (forall item st i row,
     find_row (item_id item) (_rows st) = Some (i, row) ->
     status row = ROW_FAILED \/ status row = ROW_SUCCEEDED ->
     let fresh := mkRow (item_id item) ROW_QUEUED (getField item "title") "" in
     let others := delete i (_rows st) in
     _addItem item st =
     mkState (_listeners st) (fresh :: others) (item_id item :: _queue st)
             (_queueProcessing st)
             (fired st
                ++ emit (_listeners st) "rowdeleted" (PDelete (item_id item))
                ++ emit (_listeners st) "rowadded" (PRow fresh)
                ++ (if bool_decide (others = [])
                    then emit (_listeners st) "nonempty" PNone else []))%list).
Proof.
  split; [|split].
  - intros its. induction its as [|it its IH]; intros st Hnd; [done|].
    apply (IH (_addItem it st)). by apply _addItem_NoDup.
  - intros item st i row Hfind Hstatus. unfold _addItem. rewrite Hfind.
    rewrite bool_decide_eq_false_2; [done|].
    unfold ROW_QUEUED, ROW_PROCESSING in *. lia.
  - intros item st i row Hfind Hstatus fresh others. unfold _addItem.
    rewrite Hfind. rewrite bool_decide_eq_true_2
      by (unfold ROW_FAILED, ROW_SUCCEEDED, ROW_PROCESSING in *; lia).
    pose proof (find_row_Some _ _ _ _ Hfind) as [_ Hid].
    rewrite Hid, (_deleteRow_eq _ _ _ _ Hfind), insert_row_eq. simpl.
    by rewrite <- !app_assoc.
Qed.

(** A worked instance: [pdfA] is enqueued twice while Queued, then again
    after its row has failed. *)
Lemma enqueue_keeps_one_row_per_id_witness :
  let queued := enqueue_all [pdfA; pdfB] listening in
  let failed := _updateRow 1 ROW_FAILED "recognizePDF.error" queued in
  NoDup (map row_id (_rows (enqueue_all [pdfA; pdfB; pdfA] listening))) /\
  _addItem pdfA queued = queued /\
  map row_id (_rows (_addItem pdfA failed)) = [1; 2] /\
  map fired_name (drop 4 (fired (_addItem pdfA failed))) = ["rowdeleted"; "rowadded"].
Proof.
  destruct enqueue_keeps_one_row_per_id as (Hnodup & Hactive & Hterminal).
  split; [|split].
  - apply Hnodup. simpl. apply NoDup_nil. done.
  - apply (Hactive pdfA _ 1%nat (mkRow 1 ROW_QUEUED "a.pdf" "")).
    + reflexivity.
    + left. reflexivity.
  - rewrite (Hterminal pdfA _ 1%nat (mkRow 1 ROW_FAILED "a.pdf" "recognizePDF.error")).
    + split; reflexivity.
    + reflexivity.
    + left. reflexivity.
Defined.

(** ** C7 *)

Lemma count_text_pages_empty ps n :
  Forall (fun page => page_text_empty page = true) ps ->
  count_text_pages ps n = Return n.
Proof.
  intros Hall. revert n. induction Hall as [|page ps Hpage _ IH]; intros n; [done|].
  simpl. unfold page_text_empty in Hpage.
  destruct (page !! 2%nat) as [text|]; [|done].
  apply bool_decide_eq_true_1 in Hpage. rewrite Hpage. simpl. apply IH.
Qed.

(** C7: when the extractor hands back a document all of whose pages have an
    empty text entry, [_recognize] throws the alert [recognizePDF.noOCR], and
    nothing was posted to the recognition service: the list of requests, the
    store and the record of resolver branches are as before. *)
Theorem no_text_fails_before_any_request (E : Env) (item : Item)
    (json : ExtractedDocument) (w : World) :
  pdfToJSON E (filePath item) MAX_PAGES = Return json ->
  Forall (fun page => page_text_empty page = true) (pages json) ->
  exists w',
    _recognize E item w = (Throw (Alert "recognizePDF.noOCR"), w') /\
    requests w' = requests w /\
    entered w' = entered w /\
    items w' = items w.
Proof.
  intros Hjson Hpages.
  unfold _recognize, extractJSON, bind, lift, debug, remove_cacheFile_if_there,
    set_cacheFile, ret.
  rewrite Hjson. cbv beta iota. rewrite (count_text_pages_empty _ _ Hpages). simpl.
  eexists. split; [reflexivity|]. done.
Qed.

Lemma no_text_fails_before_any_request_witness :
  let E := env_with scanned_doc None [] (fun _ _ => false) (fun _ => false) in
  exists w',
    _recognize E pdfA world0 = (Throw (Alert "recognizePDF.noOCR"), w') /\
    requests w' = requests world0 /\
    entered w' = entered world0 /\
    items w' = items world0.
Proof.
  apply (no_text_fails_before_any_request _ pdfA scanned_doc world0).
  - reflexivity.
  - repeat constructor.
Defined.

(** ** C8 *)

(** A DOI whose lookup fails, and a title: both the DOI branch and the title
    branch run. *)
Lemma failed_DOI_lookup_runs_title_branch_too :
  let E := env_with text_doc None [] (fun _ _ => false) (fun _ => false) in
  let res := candidate (JStr "10.1000/182") (JStr "A paper") JUndefined JUndefined in
  truthy (res_doi res) = true /\
  entered (snd (resolve E res 1 world0)) = [ByDOI; ByTitle].
Proof. vm_compute. done. Qed.

Ltac run_pipeline :=
  unfold bind, try_catch, enter, debug, logError, post, lift, ret, throw,
    _promiseTranslate, saveTx_unawaited, saveTx, executeTransaction, save;
  simpl.

Lemma resolve_by_DOI_entered E res lib w :
  exists r w',
    resolve_by_DOI E res lib w = (Return r, w') /\
    entered w' = (entered w ++ [ByDOI])%list.
Proof.
  unfold resolve_by_DOI. run_pipeline.
  destruct (searchDOI E (res_doi res) lib) as [[|found rest]|e]; simpl;
    eexists _, _; (split; [reflexivity|done]).
Qed.

Lemma resolve_by_DOI_found E res lib w found rest :
  searchDOI E (res_doi res) lib = Return (found :: rest) ->
  exists newItem w', resolve_by_DOI E res lib w = (Return (Some newItem), w').
Proof.
  intros Hfound. unfold resolve_by_DOI. run_pipeline. rewrite Hfound. simpl.
  eexists _, _; reflexivity.
Qed.

Lemma resolve_by_DOI_fails E res lib w :
  (exists e, searchDOI E (res_doi res) lib = Throw e) \/
  searchDOI E (res_doi res) lib = Return [] ->
  exists w', resolve_by_DOI E res lib w = (Return None, w').
Proof.
  intros [[e Hfail]|Hfail]; unfold resolve_by_DOI; run_pipeline;
    rewrite Hfail; simpl; eexists; reflexivity.
Qed.

Lemma resolve_by_ISBN_entered E res lib w :
  exists r w',
    resolve_by_ISBN E res lib w = (Return r, w') /\
    entered w' = (entered w ++ [ByISBN])%list.
Proof.
  unfold resolve_by_ISBN. run_pipeline.
  destruct (searchISBN E (res_isbn res)) as [[|found rest]|e]; simpl;
    eexists _, _; (split; [reflexivity|done]).
Qed.

Lemma resolve_by_ISBN_found E res lib w found rest :
  searchISBN E (res_isbn res) = Return (found :: rest) ->
  exists newItem w', resolve_by_ISBN E res lib w = (Return (Some newItem), w').
Proof.
  intros Hfound. unfold resolve_by_ISBN. run_pipeline. rewrite Hfound. simpl.
  eexists _, _; reflexivity.
Qed.

Lemma resolve_by_ISBN_fails E res lib w :
  (exists e, searchISBN E (res_isbn res) = Throw e) \/
  searchISBN E (res_isbn res) = Return [] ->
  exists w', resolve_by_ISBN E res lib w = (Return None, w').
Proof.
  intros [[e Hfail]|Hfail]; unfold resolve_by_ISBN; run_pipeline;
    rewrite Hfail; simpl; eexists; reflexivity.
Qed.

Lemma resolve_by_title_entered E res w :
  entered (snd (resolve_by_title E res w)) = (entered w ++ [ByTitle])%list.
Proof.
  unfold resolve_by_title. run_pipeline.
  destruct (res_authors res) as [entries|]; simpl; [|done].
  destruct (read_authors entries) as [authors|e]; simpl; [|done].
  by destruct (saveFails E _).
Qed.

(** What the DOI [if] of line 377 does: it runs the branch exactly for a
    truthy [res.doi], and hands back an item exactly when the lookup found
    one. *)
Lemma DOI_stage E res lib w :
  exists r1 w1,
    (if truthy (res_doi res) then resolve_by_DOI E res lib else ret None) w
      = (Return r1, w1) /\
    entered w1 = (entered w ++ if truthy (res_doi res) then [ByDOI] else [])%list /\
    (is_Some r1 <->
     truthy (res_doi res) = true /\
     exists first rest, searchDOI E (res_doi res) lib = Return (first :: rest)).
Proof.
  destruct (truthy (res_doi res)).
  - destruct (resolve_by_DOI_entered E res lib w) as (r & w1 & Hrun & Hent).
    exists r, w1. split; [done|]. split; [done|].
    destruct (searchDOI E (res_doi res) lib) as [[|first rest]|e] eqn:Hsearch.
    + destruct (resolve_by_DOI_fails E res lib w) as (w' & Hnone); [by right|].
      assert (r = None) as -> by congruence.
      split; [by intros [it [=]]|]. by intros (_ & first & rest & [=]).
    + destruct (resolve_by_DOI_found E res lib w first rest Hsearch) as (it & w' & Hsome).
      assert (r = Some it) as -> by congruence.
      split; [|by eexists]. intros _. split; [done|]. by exists first, rest.
    + destruct (resolve_by_DOI_fails E res lib w) as (w' & Hnone); [left; by exists e|].
      assert (r = None) as -> by congruence.
      split; [by intros [it [=]]|]. by intros (_ & first & rest & [=]).
  - exists None, w. split; [done|]. split; [by rewrite app_nil_r|].
    split; [by intros [it [=]]|]. by intros ([=] & _).
Qed.

(** The same for the ISBN [if] of line 395. *)
Lemma ISBN_stage E res lib w :
  exists r2 w2,
    (if truthy (res_isbn res) then resolve_by_ISBN E res lib else ret None) w
      = (Return r2, w2) /\
    entered w2 = (entered w ++ if truthy (res_isbn res) then [ByISBN] else [])%list /\
    (is_Some r2 <->
     truthy (res_isbn res) = true /\
     exists first rest, searchISBN E (res_isbn res) = Return (first :: rest)).
Proof.
  destruct (truthy (res_isbn res)).
  - destruct (resolve_by_ISBN_entered E res lib w) as (r & w2 & Hrun & Hent).
    exists r, w2. split; [done|]. split; [done|].
    destruct (searchISBN E (res_isbn res)) as [[|first rest]|e] eqn:Hsearch.
    + destruct (resolve_by_ISBN_fails E res lib w) as (w' & Hnone); [by right|].
      assert (r = None) as -> by congruence.
      split; [by intros [it [=]]|]. by intros (_ & first & rest & [=]).
    + destruct (resolve_by_ISBN_found E res lib w first rest Hsearch) as (it & w' & Hsome).
      assert (r = Some it) as -> by congruence.
      split; [|by eexists]. intros _. split; [done|]. by exists first, rest.
    + destruct (resolve_by_ISBN_fails E res lib w) as (w' & Hnone); [left; by exists e|].
      assert (r = None) as -> by congruence.
      split; [by intros [it [=]]|]. by intros (_ & first & rest & [=]).
  - exists None, w. split; [done|]. split; [by rewrite app_nil_r|].
    split; [by intros [it [=]]|]. by intros ([=] & _).
Qed.

Ltac sublist_of_three :=
  repeat first [ apply sublist_nil_l | apply sublist_skip | apply sublist_cons ].

(** Membership in a list of branches that is written out. *)
Ltac branch_membership :=
  rewrite ?elem_of_cons, ?elem_of_nil; intuition (congruence || eauto).

(** C8 (as the code has it): the resolver enters the DOI, ISBN and title
    branches in that order, each at most once, and which of them it enters
    is fixed by the candidate and the two lookups.  The DOI branch runs
    exactly when the candidate carries a DOI.  The ISBN branch runs exactly
    when the candidate carries an ISBN and the DOI branch did not hand back
    an item: it did not run, or its lookup threw, or it found nothing.  The
    title branch runs exactly when the candidate carries a title and neither
    of the two branches before it handed back an item.  So a lookup that
    returns an item ends the resolution (after a DOI lookup that finds an
    item only the DOI branch has run), and a lookup that throws or finds
    nothing falls through to the next branch the candidate has a field
    for. *)
Theorem resolver_falls_through_in_order (E : Env) (res : RecognitionResult)
    (lib : Z) (w : World) :
  let DOI_found :=
    truthy (res_doi res) = true /\
    exists first rest, searchDOI E (res_doi res) lib = Return (first :: rest) in
  let ISBN_found :=
    truthy (res_isbn res) = true /\
    exists first rest, searchISBN E (res_isbn res) = Return (first :: rest) in
  exists ran,
    entered (snd (resolve E res lib w)) = (entered w ++ ran)%list /\
    ran `sublist_of` [ByDOI; ByISBN; ByTitle] /\
    (ByDOI ∈ ran <-> truthy (res_doi res) = true) /\
    (ByISBN ∈ ran <-> truthy (res_isbn res) = true /\ ~ DOI_found) /\
    (ByTitle ∈ ran <->
     truthy (res_title res) = true /\ ~ DOI_found /\ ~ ISBN_found) /\
    (forall found rest,
       truthy (res_doi res) = true ->
       searchDOI E (res_doi res) lib = Return (found :: rest) ->
       ran = [ByDOI]) /\
    (forall found rest,
       truthy (res_isbn res) = true ->
       searchISBN E (res_isbn res) = Return (found :: rest) ->
       ByTitle ∉ ran) /\
    ((exists e, searchDOI E (res_doi res) lib = Throw e) \/
       searchDOI E (res_doi res) lib = Return [] ->
     truthy (res_doi res) = true ->
     truthy (res_isbn res) = false ->
     truthy (res_title res) = true ->
     ran = [ByDOI; ByTitle]).
Proof.
  intros DOI_found ISBN_found.
  destruct (DOI_stage E res lib w) as (r1 & w1 & Hrun1 & Hent1 & Hsome1).
  destruct (ISBN_stage E res lib w1) as (r2 & w2 & Hrun2 & Hent2 & Hsome2).
  assert (Htitle : exists ran3,
    entered (snd ((if truthy (res_title res) then resolve_by_title E res
                   else ret None) w2)) = (entered w2 ++ ran3)%list /\
    ran3 = (if truthy (res_title res) then [ByTitle] else [])).
  { destruct (truthy (res_title res)).
    - exists [ByTitle]. by rewrite resolve_by_title_entered.
    - exists []. by rewrite app_nil_r. }
  destruct Htitle as (ran3 & Hent3 & Hran3).
  fold DOI_found in Hsome1. fold ISBN_found in Hsome2.
  unfold resolve, bind. rewrite Hrun1.
  destruct r1 as [newItem1|].
  - (* the DOI branch handed back an item *)
    assert (HDOI : DOI_found) by (apply Hsome1; by eexists).
    pose proof HDOI as (Hdoi & first & rest & Hsearch).
    exists [ByDOI]. unfold ret. cbn [snd]. rewrite Hent1, Hdoi.
    split; [done|]. split; [sublist_of_three|].
    split; [branch_membership|]. split; [branch_membership|].
    split; [branch_membership|]. split; [done|].
    split; [intros _ _ _ _; branch_membership|].
    intros [[e He]|He] _ _ _; congruence.
  - assert (HDOI : ~ DOI_found).
    { intros Hfound. apply Hsome1 in Hfound as [it [=]]. }
    rewrite Hrun2. destruct r2 as [newItem2|].
    + (* the ISBN branch handed back an item *)
      assert (HISBN : ISBN_found) by (apply Hsome2; by eexists).
      pose proof HISBN as (Hisbn & first & rest & Hsearch).
      exists ((if truthy (res_doi res) then [ByDOI] else []) ++ [ByISBN])%list.
      unfold ret. cbn [snd]. rewrite Hent2, Hent1, Hisbn, <- app_assoc.
      split; [done|].
      destruct (truthy (res_doi res)) eqn:Hdoi; simpl.
      all: split; [sublist_of_three|].
      all: split; [branch_membership|]. all: split; [branch_membership|].
      all: split; [branch_membership|].
      all: split; [intros f r Ht Hf; exfalso; apply HDOI; split; [done|by exists f, r]|].
      all: split; [intros _ _ _ _; branch_membership|].
      all: intros _ _ ? _; congruence.
    + (* neither lookup handed back an item *)
      assert (HISBN : ~ ISBN_found).
      { intros Hfound. apply Hsome2 in Hfound as [it [=]]. }
      exists ((if truthy (res_doi res) then [ByDOI] else [])
                ++ (if truthy (res_isbn res) then [ByISBN] else []) ++ ran3)%list.
      rewrite Hent3, Hent2, Hent1, <- !app_assoc. split; [done|]. subst ran3.
      destruct (truthy (res_doi res)) eqn:Hdoi,
               (truthy (res_isbn res)) eqn:Hisbn,
               (truthy (res_title res)) eqn:Htitle; simpl.
      all: split; [sublist_of_three|].
      all: split; [branch_membership|]. all: split; [branch_membership|].
      all: split; [branch_membership|].
      all: split; [intros f r Ht Hf; exfalso; apply HDOI; split; [done|by exists f, r]|].
      all: split; [intros f r Ht Hf; exfalso; apply HISBN; split; [done|by exists f, r]|].
      all: intros _ ? ? ?; congruence.
Qed.

Lemma resolver_falls_through_in_order_witness :
  let found := setField "title" (JStr "A paper") (set_item_id 50 (new_Item "journalArticle")) in
  let E := env_with text_doc None [found] (fun _ _ => false) (fun _ => false) in
  let res := candidate (JStr "10.1000/182") (JStr "A paper") JUndefined JUndefined in
  entered (snd (resolve E res 1 world0)) = [ByDOI].
Proof.
  intros found E res.
  destruct (resolver_falls_through_in_order E res 1 world0)
    as (ran & Hent & _ & _ & _ & _ & Hfound & _ & _).
  rewrite Hent. rewrite (Hfound found []); reflexivity.
Defined.

(** ** C4 *)


Lemma addToCollections_Return_iff E cs newID w :
  (exists w', addToCollections E cs newID w = (Return tt, w')) <->
  (forall c, c ∈ cs -> addItemFails E c newID = false).
Proof.
  revert w. induction cs as [|c cs IH]; intros w.
  - split; [by intros _ c' Hc'%elem_of_nil|]. intros _. by exists w.
  - simpl. unfold bind, collection_addItem.
    destruct (addItemFails E c newID) eqn:Hc.
    + split; [by intros [w' [=]]|]. intros Hall.
      rewrite Hall in Hc by by left. discriminate Hc.
    + rewrite IH. split.
      * intros Hall c' [->|Hc']%elem_of_cons; [done|by apply Hall].
      * intros Hall c' Hc'. apply Hall. by right.
Qed.


(** A run in which the transaction fails at its last step: recognition saves
    the new item 100, the copies into collections 7 and 8 go through, the
    save of the re-parented [pdfA] fails, and the store shows neither the
    copies nor the new parent. *)
Example failed_reparenting_rolls_back_the_copies :
  let res := candidate JUndefined (JStr "A paper") JUndefined JUndefined in
  let E := env_with text_doc (Some res) [] (fun _ _ => false)
                    (fun it => bool_decide (item_id it = 1)) in
  let '(r, w2) := _processItem E 1 world0 in
  r = Throw (Error "save failed") /\
  collectionItems w2 = [(7, 1); (8, 1)] /\
  parentItemID <$> items w2 !! 1 = Some None /\
  is_Some (items w2 !! 100).
Proof. vm_compute. eauto. Qed.

(** The other run: no write fails, and the store holds the copies into
    collections 7 and 8 and the new parent of [pdfA]. *)
Example materialization_without_failure_commits_both :
  let res := candidate JUndefined (JStr "A paper") JUndefined JUndefined in
  let E := env_with text_doc (Some res) [] (fun _ _ => false) (fun _ => false) in
  let '(r, w2) := _processItem E 1 world0 in
  r = Return (Some (set_item_id 100 (title_item res []))) /\
  collectionItems w2 = [(7, 1); (8, 1); (7, 100); (8, 100)] /\
  parentItemID <$> items w2 !! 1 = Some (Some 100).
Proof. vm_compute. eauto. Qed.


(** ** C5 and C6: passes of the worker *)

Lemma _updateRow_keeps itemID newStatus msg st :
  _queue (_updateRow itemID newStatus msg st) = _queue st /\
  _queueProcessing (_updateRow itemID newStatus msg st) = _queueProcessing st /\
  _listeners (_updateRow itemID newStatus msg st) = _listeners st.
Proof.
  unfold _updateRow. destruct (find_row itemID (_rows st)) as [[i row]|]; [|done].
  by rewrite fire_emit.
Qed.

Lemma settle_keeps E itemID r st w :
  _queue (settle E itemID r st w).1 = _queue st /\
  _queueProcessing (settle E itemID r st w).1 = _queueProcessing st.
Proof.
  unfold settle. destruct r as [[newItem|]|e]; simpl; split; apply _updateRow_keeps.
Qed.

Lemma loop_head_offline E st :
  loop_head E true st = (st, Some (AtDelay OFFLINE_RECHECK_DELAY)).
Proof. done. Qed.

Lemma loop_head_empty E st :
  _queue st = [] ->
  loop_head E false st = (set_queueProcessing false (set_queue [] st), None).
Proof. intros Hq. unfold loop_head. by rewrite Hq. Qed.

Lemma loop_head_next E st next rest :
  _queue st = next :: rest ->
  next <> 0 ->
  loop_head E false st =
    (_updateRow next ROW_PROCESSING (getString E "recognizePDF.processing")
                (set_queue rest st),
     Some (AtItem next)).
Proof.
  intros Hq Hnext. unfold loop_head. rewrite Hq. simpl.
  apply Z.eqb_neq in Hnext. by rewrite Hnext.
Qed.

(** Whatever the pipelines do, a worker that stays online takes every id of
    the queue, in queue order, and then leaves the loop. *)
Lemma run_alone_takes_all E q : forall pc st w,
  in_loop pc = true ->
  _queue st = q ->
  Forall (fun id => id <> 0) q ->
  exists st' w',
    run_alone E (replicate (S (length q)) false) pc st w = (st', w', None, q) /\
    _queueProcessing st' = false.
Proof.
  induction q as [|next rest IH]; intros pc st w Hpc Hq Hids.
  - cbn [length replicate run_alone].
    assert (Hpass : exists st' w', resume E false pc st w = (st', w', None) /\
                                   _queueProcessing st' = false).
    { destruct pc as [|d|itemID]; [discriminate Hpc| |]; unfold resume.
      - rewrite (loop_head_empty E st Hq). by eexists _, _.
      - destruct (_processItem E itemID w) as [r w1].
        destruct (settle E itemID r st w1) as [st1 w2] eqn:Hsettle.
        pose proof (settle_keeps E itemID r st w1) as [Hq1 _].
        rewrite Hsettle in Hq1. simpl in Hq1.
        rewrite (loop_head_empty E st1) by congruence. by eexists _, _. }
    destruct Hpass as (st' & w' & -> & Hflag). by exists st', w'.
  - apply Forall_cons in Hids as [Hnext Hids].
    change (replicate (S (length (next :: rest))) false)
      with (false :: replicate (S (length rest)) false).
    cbn [run_alone].
    assert (Hpass : exists st' w', resume E false pc st w = (st', w', Some (AtItem next)) /\
                                   _queue st' = rest).
    { destruct pc as [|d|itemID]; [discriminate Hpc| |]; unfold resume.
      - rewrite (loop_head_next E st next rest Hq Hnext). eexists _, _.
        split; [reflexivity|]. by rewrite (proj1 (_updateRow_keeps _ _ _ _)).
      - destruct (_processItem E itemID w) as [r w1].
        destruct (settle E itemID r st w1) as [st1 w2] eqn:Hsettle.
        pose proof (settle_keeps E itemID r st w1) as [Hq1 _].
        rewrite Hsettle in Hq1. simpl in Hq1.
        rewrite (loop_head_next E st1 next rest) by congruence. eexists _, _.
        split; [reflexivity|]. by rewrite (proj1 (_updateRow_keeps _ _ _ _)). }
    destruct Hpass as (st1 & w1 & -> & Hq1).
    destruct (IH (AtItem next) st1 w1 eq_refl Hq1 Hids) as (st' & w' & -> & Hflag).
    by exists st', w'.
Qed.

(** C5: an error thrown by the pipeline of [itemID] is caught at the item.
    The row of [itemID] becomes Failed, with the alert's own message for a
    [Zotero.Exception.Alert] and the localized [recognizePDF.error] text for
    any other error; the error is logged; the pass then goes on from the top
    of the loop, so that an online worker takes the next id of the queue; and
    over a whole run, whatever the pipelines do, an online worker takes every
    queued id and only then leaves the loop. *)
Theorem pipeline_error_is_caught_at_the_item (E : Env) (itemID : Z) (st : State)
    (w w' : World) (e : Exn) (i : nat) (row : Row) :
  _processItem E itemID w = (Throw e, w') ->
  find_row itemID (_rows st) = Some (i, row) ->
  let msg := match e with
             | Alert name => alertMessage E name
             | Error _ => getString E "recognizePDF.error"
             end in
  let failed :=
    mkState (_listeners st)
            (<[i := mkRow itemID ROW_FAILED (fileName row) msg]> (_rows st))
            (_queue st) (_queueProcessing st)
            (fired st ++ emit (_listeners st) "rowupdated" (PUpdate itemID ROW_FAILED msg)) in
  let logged := snd (logError e w') in
  (forall offline,
     resume E offline (AtItem itemID) st w =
       ((loop_head E offline failed).1, logged, (loop_head E offline failed).2)) /\
  (forall next rest,
     _queue st = next :: rest ->
     next <> 0 ->
     exists st',
       resume E false (AtItem itemID) st w = (st', logged, Some (AtItem next)) /\
       _queue st' = rest /\
       _queueProcessing st' = _queueProcessing st /\
       find_row itemID (_rows failed) = Some (i, mkRow itemID ROW_FAILED (fileName row) msg)) /\
  (Forall (fun id => id <> 0) (_queue st) ->
   exists st'' w'',
     run_alone E (replicate (S (length (_queue st))) false) (AtItem itemID) st w
       = (st'', w'', None, _queue st)).
Proof.
  intros Hthrow Hfind msg failed logged.
  assert (Hsettle : settle E itemID (Throw e) st w' = (failed, logged)).
  { unfold settle. rewrite (_updateRow_eq _ _ _ _ _ _ Hfind).
    unfold failure_message, exn_message. by destruct e. }
  assert (Hpass : forall offline,
     resume E offline (AtItem itemID) st w =
       ((loop_head E offline failed).1, logged, (loop_head E offline failed).2)).
  { intros offline. unfold resume. rewrite Hthrow, Hsettle.
    by destruct (loop_head E offline failed). }
  split; [done|]. split.
  - intros next rest Hq Hnext. rewrite Hpass.
    rewrite (loop_head_next E failed next rest Hq Hnext). simpl.
    eexists. split; [reflexivity|].
    split; [by rewrite (proj1 (_updateRow_keeps _ _ _ _))|].
    split; [by rewrite (proj1 (proj2 (_updateRow_keeps _ _ _ _)))|].
    subst failed. simpl. unfold find_row in *.
    apply list_find_Some in Hfind as (Hi & Hid & Hbefore).
    apply list_find_Some. split; [|split; [done|]].
    + apply list_lookup_insert_eq. by eapply lookup_lt_Some.
    + intros j other Hj Hlt. rewrite list_lookup_insert_ne in Hj by lia.
      by apply (Hbefore j).
  - intros Hids.
    destruct (run_alone_takes_all E (_queue st) (AtItem itemID) st w eq_refl eq_refl Hids)
      as (st'' & w'' & Hrun & _).
    by exists st'', w''.
Qed.

(** A worked instance: [pdfB] is at the head and has a parent by now, so its
    pipeline throws the [recognizePDF.fileNotFound] alert; its row fails with
    that message and the worker goes on to [pdfA]. *)
Lemma pipeline_error_is_caught_at_the_item_witness :
  let E := env_with text_doc None [] (fun _ _ => false) (fun _ => false) in
  let gone :=
    mkWorld {[1 := pdfA; 2 := set_parentID 1 pdfB]} [] 100 [] [] [] [] [] false in
  let st := (loop_head E false (enqueue_all [pdfA; pdfB] listening)).1 in
  exists st',
    resume E false (AtItem 2) st gone
      = (st', snd (logError (Alert "recognizePDF.fileNotFound") gone), Some (AtItem 1)) /\
    _queue st' = [] /\
    status <$> _rows st' !! 0%nat = Some ROW_FAILED /\
    message <$> _rows st' !! 0%nat = Some "recognizePDF.fileNotFound".
Proof.
  intros E gone st.
  destruct (pipeline_error_is_caught_at_the_item E 2 st gone gone
              (Alert "recognizePDF.fileNotFound") 0%nat
              (mkRow 2 ROW_PROCESSING "b.pdf" "recognizePDF.processing")
              eq_refl eq_refl) as (_ & Hnext & _).
  destruct (Hnext 1 [] eq_refl ltac:(lia)) as (st' & Hrun & Hq & _ & _).
  exists st'. split; [exact Hrun|]. split; [exact Hq|].
  vm_compute in Hrun. injection Hrun as <-. split; reflexivity.
Defined.

(** ** C6 *)

Lemma run_alone_offline E n : forall d st w,
  run_alone E (replicate (S n) true) (AtDelay d) st w =
    (st, w, Some (AtDelay OFFLINE_RECHECK_DELAY), []).
Proof.
  induction n as [|n IH]; intros d st w; [done|].
  change (replicate (S (S n)) true) with (true :: replicate (S n) true).
  cbn [run_alone resume]. rewrite loop_head_offline. by rewrite IH.
Qed.

Lemma run_alone_offline_then E n rest : forall d st w,
  run_alone E (replicate n true ++ rest) (AtDelay d) st w =
  run_alone E rest (AtDelay (if n is O then d else OFFLINE_RECHECK_DELAY)) st w.
Proof.
  induction n as [|n IH]; intros d st w; [done|].
  change (replicate (S n) true ++ rest)%list with (true :: (replicate n true ++ rest))%list.
  cbn [run_alone resume]. rewrite loop_head_offline, IH.
  destruct (run_alone E rest _ st w) as [[[st' w'] last] taken] eqn:Hrun.
  destruct n; rewrite Hrun; done.
Qed.

(** C6: a worker that comes to the top of the loop and finds the browser
    offline asks for a delay of [OFFLINE_RECHECK_DELAY] = 60 * 1000
    milliseconds and changes nothing: after any number of such passes the
    rows, the queue, the listener invocations and the store are what they
    were, and no id has been taken.  The first pass that finds the browser online does what it would
    have done without the outage: it takes the id that was at the head of the
    queue all along. *)
Theorem offline_passes_wait_and_change_nothing (E : Env) (st : State) (w : World)
    (d : Z) (n : nat) :
  OFFLINE_RECHECK_DELAY = 60000 /\
  loop_head E true st = (st, Some (AtDelay 60000)) /\
  run_alone E (replicate (S n) true) (AtDelay d) st w
    = (st, w, Some (AtDelay 60000), []) /\
  (forall d', resume E false (AtDelay d') st w = resume E false (AtDelay d) st w) /\
  run_alone E (replicate (S n) true ++ [false]) (AtDelay d) st w
    = run_alone E [false] (AtDelay 60000) st w /\
  (forall head rest,
     _queue st = head :: rest ->
     head <> 0 ->
     exists st',
       run_alone E (replicate (S n) true ++ [false]) (AtDelay d) st w
         = (st', w, Some (AtItem head), [head]) /\
       _queue st' = rest).
Proof.
  split; [done|]. split; [done|]. split; [apply run_alone_offline|]. split; [done|].
  split; [apply (run_alone_offline_then E (S n))|].
  intros head rest Hq Hhead.
  rewrite (run_alone_offline_then E (S n)). cbn [run_alone resume].
  rewrite (loop_head_next E st head rest Hq Hhead).
  eexists. split; [reflexivity|]. by rewrite (proj1 (_updateRow_keeps _ _ _ _)).
Qed.

Lemma offline_passes_wait_and_change_nothing_witness :
  let E := env_with text_doc None [] (fun _ _ => false) (fun _ => false) in
  let st := set_queueProcessing true (enqueue_all [pdfA; pdfB] listening) in
  exists st',
    run_alone E [true; true; true; false] (AtDelay 60000) st world0
      = (st', world0, Some (AtItem 2), [2]) /\
    _queue st' = [1].
Proof.
  intros E st.
  destruct (offline_passes_wait_and_change_nothing E st world0 60000 2)
    as (_ & _ & _ & _ & _ & Hresume).
  apply (Hresume 2 [1]).
  - reflexivity.
  - lia.
Defined.

(** ** C2 *)

Lemma _addItem_flag item st :
  _queueProcessing (_addItem item st) = _queueProcessing st.
Proof.
  unfold _addItem. destruct (find_row (item_id item) (_rows st)) as [[i row]|] eqn:Hfind.
  - case_bool_decide; [|done].
    pose proof (find_row_Some _ _ _ _ Hfind) as [_ Hid].
    by rewrite Hid, (_deleteRow_eq _ _ _ _ Hfind), insert_row_eq.
  - by rewrite insert_row_eq.
Qed.

Lemma enqueue_all_flag its st :
  _queueProcessing (enqueue_all its st) = _queueProcessing st.
Proof.
  revert st. induction its as [|it its IH]; intros st; [done|].
  change (enqueue_all (it :: its) st) with (enqueue_all its (_addItem it st)).
  by rewrite IH, _addItem_flag.
Qed.

Lemma cancel_flag st : _queueProcessing (cancel st) = _queueProcessing st.
Proof. unfold cancel. by rewrite fire_emit. Qed.

(** How a pass from the top of the loop ends: at an [await] inside the loop
    with the flag as it was, or out of the loop with the flag cleared, and
    then the browser was online and [shift] gave no id. *)
Lemma loop_head_cases E offline st :
  (exists pc, (loop_head E offline st).2 = Some pc /\ in_loop pc = true /\
              _queueProcessing (loop_head E offline st).1 = _queueProcessing st) \/
  ((loop_head E offline st).2 = None /\
   _queueProcessing (loop_head E offline st).1 = false /\
   _queue (loop_head E offline st).1 = tail (_queue st) /\
   offline = false /\
   no_id (head (_queue st)) = true).
Proof.
  unfold loop_head. destruct offline; [left; by eexists|].
  destruct (_queue st) as [|itemID rest]; cbn [shift no_id]; [by right|].
  destruct (itemID =? 0) eqn:Hid; [by right|].
  left. eexists. split; [reflexivity|]. split; [done|].
  cbn [fst]. by rewrite (proj1 (proj2 (_updateRow_keeps _ _ _ _))).
Qed.

(** The three ways a pass of a call of [_processQueue] can go. *)
Lemma resume_cases E offline pc st w st' w' next :
  resume E offline pc st w = (st', w', next) ->
  (pc = AtSchema /\ _queueProcessing st = true /\ st' = st /\ w' = w /\ next = None) \/
  (next = None /\ _queueProcessing st' = false /\
   (pc = AtSchema -> _queueProcessing st = false) /\
   _queue st' = tail (_queue st) /\ no_id (head (_queue st)) = true) \/
  (exists pc', next = Some pc' /\ in_loop pc' = true /\
     (pc = AtSchema -> _queueProcessing st = false) /\
     _queueProcessing st' = if in_loop pc then _queueProcessing st else true).
Proof.
  intros Hpass.
  assert (Hfrom : forall st0,
    (loop_head E offline st0).1 = st' ->
    (loop_head E offline st0).2 = next ->
    (next = None /\ _queueProcessing st' = false /\
     _queue st' = tail (_queue st0) /\ no_id (head (_queue st0)) = true) \/
    (exists pc', next = Some pc' /\ in_loop pc' = true /\
       _queueProcessing st' = _queueProcessing st0)).
  { intros st0 <- <-.
    destruct (loop_head_cases E offline st0) as [(pc' & Hn & Hin & Hf)|(Hn & Hf & Hq & _ & Hno)].
    - right. by exists pc'.
    - by left. }
  destruct pc as [|d|itemID]; unfold resume in Hpass.
  - destruct (_queueProcessing st) eqn:Hflag.
    + left. by injection Hpass as <- <- <-.
    + right. destruct (loop_head E offline (set_queueProcessing true st))
        as [st1 next1] eqn:Hhead.
      injection Hpass as <- <- <-.
      destruct (Hfrom (set_queueProcessing true st)) as [(Hn & Hf & Hq & Hno)|(pc' & Hn & Hin & Hf)];
        try (by rewrite Hhead).
      * left. done.
      * right. exists pc'. done.
  - right. destruct (loop_head E offline st) as [st1 next1] eqn:Hhead.
    injection Hpass as <- <- <-.
    destruct (Hfrom st) as [(Hn & Hf & Hq & Hno)|(pc' & Hn & Hin & Hf)];
      try (by rewrite Hhead).
    + left. done.
    + right. exists pc'. done.
  - right. destruct (_processItem E itemID w) as [r w1].
    destruct (settle E itemID r st w1) as [st1 w2] eqn:Hsettle.
    pose proof (settle_keeps E itemID r st w1) as [Hq1 Hf1].
    rewrite Hsettle in Hq1, Hf1. simpl in Hq1, Hf1.
    destruct (loop_head E offline st1) as [st2 next2] eqn:Hhead.
    injection Hpass as <- <- <-.
    destruct (Hfrom st1) as [(Hn & Hf & Hq & Hno)|(pc' & Hn & Hin & Hf)];
      try (by rewrite Hhead).
    + left. rewrite <- Hq1. done.
    + right. exists pc'. simpl. rewrite <- Hf1. done.
Qed.

Lemma active_loops_split (before after : list LoopPC) (mid : list LoopPC) w st :
  active_loops (mkSys st w (before ++ mid ++ after)) =
  (length (filter (fun pc => in_loop pc = true) before)
   + length (filter (fun pc => in_loop pc = true) mid)
   + length (filter (fun pc => in_loop pc = true) after))%nat.
Proof. unfold active_loops. simpl. rewrite !filter_app, !length_app. lia. Qed.

Lemma step_single_flight E s s' :
  step E s s' -> single_flight s -> single_flight s'.
Proof.
  unfold single_flight.
  intros Hstep Hinv. destruct Hstep as [name cb s|name s|its s|s|
    offline before after pc s st' w' next Htasks Hpass]; simpl.
  - done.
  - done.
  - rewrite enqueue_all_flag. unfold active_loops in *. simpl.
    rewrite filter_app, length_app. simpl. lia.
  - by rewrite cancel_flag.
  - destruct s as [st w ts]. simpl in *. subst ts.
    change (before ++ pc :: after)%list with (before ++ [pc] ++ after)%list in Hinv.
    rewrite active_loops_split in *.
    apply resume_cases in Hpass
      as [(-> & Hflag & -> & -> & ->)|[(-> & Hflag & Hschema & _)|(pc' & -> & Hin & Hschema & Hflag)]].
    + by rewrite Hflag in *.
    + rewrite Hflag. simpl. destruct pc; simpl in *.
      * rewrite Hschema in Hinv by done. simpl in Hinv. lia.
      * destruct (_queueProcessing st); lia.
      * destruct (_queueProcessing st); lia.
    + assert (Hone : length (filter (fun pc => in_loop pc = true) [pc']) = 1%nat)
        by (by rewrite filter_cons_True).
      cbn [option_to_list]. rewrite Hone, Hflag. destruct pc; simpl in *.
      * rewrite Hschema in Hinv by done. lia.
      * destruct (_queueProcessing st); lia.
      * destruct (_queueProcessing st); lia.
Qed.

Lemma reachable_single_flight E s : reachable E s -> single_flight s.
Proof.
  intros [w Hrun].
  apply (rtc_ind_r (R := step E) (fun s => single_flight s)
           (mkSys initial_state w [])); [| |done].
  - reflexivity.
  - intros s1 s2 _ Hstep IH. by eapply step_single_flight.
Qed.

(** C2: in every state the module can reach, at most one call of
    [_processQueue] is inside the loop, and one is exactly when
    [_queueProcessing] is set.  A call that comes to line 198 while the flag
    is set ends there: rows, queue, listener invocations and store are
    untouched and nothing is taken from the queue.  The flag goes from set to
    clear only in a pass of the call inside the loop that ends that call, and
    (item ids being non-zero) that pass found the queue empty. *)
Theorem at_most_one_processing_loop (E : Env) :
  (forall s,
     reachable E s ->
     (active_loops s <= 1)%nat /\
     (active_loops s = 1%nat <-> _queueProcessing (module s) = true)) /\
  (forall offline st w,
     _queueProcessing st = true ->
     resume E offline AtSchema st w = (st, w, None)) /\
  (forall s s',
     step E s s' ->
     _queueProcessing (module s) = true ->
     _queueProcessing (module s') = false ->
     Forall (fun id => id <> 0) (_queue (module s)) ->
     _queue (module s) = [] /\
     exists (before after : list LoopPC) pc,
       in_loop pc = true /\
       tasks s = (before ++ pc :: after)%list /\
       tasks s' = (before ++ after)%list).
Proof.
  split; [|split].
  - intros s Hreach. apply reachable_single_flight in Hreach.
    unfold single_flight in Hreach. rewrite Hreach.
    destruct (_queueProcessing (module s)); split; try lia; done.
  - intros offline st w Hflag. unfold resume. by rewrite Hflag.
  - intros s s' Hstep Hset Hclear Hids.
    destruct Hstep as [name cb s|name s|its s|s|
      offline before after pc s st' w' next Htasks Hpass]; simpl in Hclear.
    + congruence.
    + congruence.
    + rewrite enqueue_all_flag in Hclear. congruence.
    + rewrite cancel_flag in Hclear. congruence.
    + apply resume_cases in Hpass
        as [(_ & _ & -> & _)|[(-> & _ & Hschema & Hq & Hno)|(pc' & _ & _ & Hschema & Hflag)]].
      * congruence.
      * assert (Hempty : _queue (module s) = []).
        { destruct (_queue (module s)) as [|itemID rest]; [done|].
          apply Forall_cons in Hids as [Hid _]. simpl in Hno.
          apply Z.eqb_eq in Hno. done. }
        split; [done|]. exists before, after, pc. simpl.
        split; [|done]. destruct pc; [|done|done].
        rewrite Hschema in Hset by done. discriminate Hset.
      * rewrite Hflag in Hclear. destruct pc; simpl in Hclear; try congruence.
Qed.

(** A worked instance: [pdfA] is enqueued and a first call enters the loop;
    a second call then finds the flag set; and a call waking on an empty
    queue clears the flag. *)
Lemma at_most_one_processing_loop_witness :
  let E := env_with text_doc None [] (fun _ _ => false) (fun _ => false) in
  let busy :=
    (loop_head E false (set_queueProcessing true (enqueue_all [pdfA] initial_state))).1 in
  let s := mkSys busy world0 [AtItem 1; AtSchema] in
  let idle := set_queueProcessing true listening in
  (active_loops s <= 1)%nat /\
  resume E false AtSchema busy world0 = (busy, world0, None) /\
  _queue idle = [].
Proof.
  intros E busy s idle.
  destruct (at_most_one_processing_loop E) as (Hone & Hbusy & Hclear).
  split; [|split].
  - apply Hone. exists world0.
    eapply rtc_l; [apply (step_recognizeItems E [pdfA])|]. simpl.
    eapply rtc_l; [apply (step_recognizeItems E [])|]. simpl.
    eapply rtc_l; [|apply rtc_refl].
    apply (step_resume E false [] [AtSchema] AtSchema _ busy world0 (Some (AtItem 1)));
      reflexivity.
  - apply Hbusy. reflexivity.
  - apply (Hclear (mkSys idle world0 [AtDelay 60000])
                  (mkSys (set_queueProcessing false (set_queue [] idle)) world0 [])).
    + apply (step_resume E false [] [] (AtDelay 60000) _ _ world0 None); reflexivity.
    + reflexivity.
    + reflexivity.
    + constructor.
Defined.

(** * Further properties of the module *)

(** ** Listeners (lines 45-55) *)

(** X1: One callback per event name, the last one registered: after two
    registrations under a name an event of that name calls the second
    callback once and the first not at all; after [removeListener] it calls
    nothing; and registering or removing under one name leaves the listeners
    of every other name as they were. *)
Theorem listener_last_registration_wins (name : string) (cb1 cb2 : Callback)
    (arg : Payload) (st : State) :
  fired (fire name arg (addListener name cb2 (addListener name cb1 st)))
    = (fired st ++ [mkFired name cb2 arg])%list /\
  fired (fire name arg (removeListener name (addListener name cb1 st))) = fired st /\
  (forall other,
     other <> name ->
     emit (_listeners (addListener name cb1 st)) other arg = emit (_listeners st) other arg /\
     emit (_listeners (removeListener name st)) other arg = emit (_listeners st) other arg).
Proof.
  split; [|split].
  - rewrite fire_emit. unfold emit, addListener. simpl.
    by rewrite lookup_insert_eq.
  - rewrite fire_emit. unfold emit, removeListener, addListener. simpl.
    by rewrite lookup_delete_eq, app_nil_r.
  - intros other Hother. unfold emit, addListener, removeListener. simpl.
    by rewrite lookup_insert_ne, lookup_delete_ne.
Qed.

Lemma listener_last_registration_wins_witness :
  emit (_listeners (addListener "empty" 3%nat listening)) "rowadded" PNone
    = emit (_listeners listening) "rowadded" PNone.
Proof.
  destruct (listener_last_registration_wins "empty" 3%nat 4%nat PNone listening)
    as (_ & _ & Hother).
  apply (Hother "rowadded"). discriminate.
Defined.

(** ** Enqueuing (lines 119-147) *)

Lemma find_row_front itemID st' name msg rows :
  find_row itemID (mkRow itemID st' name msg :: rows)
    = Some (0%nat, mkRow itemID st' name msg).
Proof. unfold find_row. cbn. by rewrite decide_True. Qed.

(** X2: Enqueuing an item twice in a row is the same as enqueuing it once,
    whatever the rows, the queue and the listeners are: the second call finds
    the Queued row (its own, or the one already there) and returns. *)
Theorem enqueue_twice_is_enqueue_once (item : Item) (st : State) :
  _addItem item (_addItem item st) = _addItem item st.
Proof.
  assert (Hfront : forall st0, _addItem item (insert_row item st0) = insert_row item st0).
  { intros st0. unfold _addItem at 1. rewrite insert_row_eq. cbn [_rows].
    rewrite find_row_front. cbn [status]. by rewrite bool_decide_eq_false_2. }
  destruct (find_row (item_id item) (_rows st)) as [[i row]|] eqn:Hfind.
  - destruct (decide (status row > ROW_PROCESSING)) as [Hstatus|Hstatus].
    + assert (Hfirst : _addItem item st = insert_row item (_deleteRow (row_id row) st)).
      { unfold _addItem. by rewrite Hfind, bool_decide_eq_true_2. }
      rewrite Hfirst. apply Hfront.
    + assert (Hfirst : _addItem item st = st).
      { unfold _addItem. by rewrite Hfind, bool_decide_eq_false_2. }
      by rewrite !Hfirst.
  - assert (Hfirst : _addItem item st = insert_row item st).
    { unfold _addItem. by rewrite Hfind. }
    rewrite Hfirst. apply Hfront.
Qed.

(** X3: An id that has no row gets a Queued row with the item's title at the
    front of the table and goes to the front of the queue; [rowadded] is
    called with the row, and [nonempty] after it exactly when the table was
    empty; nothing is deleted and the flag is not touched. *)
Theorem enqueue_of_an_unknown_id (item : Item) (st : State) :
  item_id item ∉ map row_id (_rows st) ->
  let fresh := mkRow (item_id item) ROW_QUEUED (getField item "title") "" in
  _addItem item st =
  mkState (_listeners st) (fresh :: _rows st) (item_id item :: _queue st)
          (_queueProcessing st)
          (fired st
             ++ emit (_listeners st) "rowadded" (PRow fresh)
             ++ (if bool_decide (_rows st = [])
                 then emit (_listeners st) "nonempty" PNone else []))%list.
Proof.
  intros Hnew fresh. apply find_row_None in Hnew.
  unfold _addItem. rewrite Hnew. apply insert_row_eq.
Qed.

Lemma enqueue_of_an_unknown_id_witness :
  map fired_name (fired (_addItem pdfA listening)) = ["rowadded"; "nonempty"] /\
  map fired_name (fired (_addItem pdfB (_addItem pdfA listening)))
    = ["rowadded"; "nonempty"; "rowadded"].
Proof.
  split.
  - rewrite (enqueue_of_an_unknown_id pdfA listening); [reflexivity|].
    apply not_elem_of_nil.
  - rewrite (enqueue_of_an_unknown_id pdfB (_addItem pdfA listening)); [reflexivity|].
    change (2 ∉ [1]). by intros [=]%list_elem_of_singleton.
Defined.

(** X4: [getTotal] after an enqueue: one more when the id had no row, the same
    when it had one (an active row is kept, a terminal row is replaced). *)
Theorem getTotal_after_enqueue (item : Item) (st : State) :
  getTotal (_addItem item st) =
  if bool_decide (item_id item ∈ map row_id (_rows st))
  then getTotal st else S (getTotal st).
Proof.
  unfold getTotal, _addItem.
  destruct (find_row (item_id item) (_rows st)) as [[i row]|] eqn:Hfind.
  - pose proof (find_row_Some _ _ _ _ Hfind) as [Hi Hid].
    rewrite (bool_decide_eq_true_2 (item_id item ∈ map row_id (_rows st))).
    2:{ rewrite <- Hid. apply list_elem_of_fmap_2. by eapply list_elem_of_lookup_2. }
    case_bool_decide; [|done].
    rewrite Hid, (_deleteRow_eq _ _ _ _ Hfind), insert_row_eq. cbn [_rows length].
    rewrite length_delete by eauto.
    apply lookup_lt_Some in Hi. lia.
  - rewrite bool_decide_eq_false_2 by (by apply find_row_None).
    by rewrite insert_row_eq.
Qed.

(** ** Row updates (lines 155-170) *)

(** X5: [_updateRow] rewrites the status and the message of the first row with
    the id and nothing else: the ids and the file names of the table, in
    order, the rows with another id, the queue and the flag are as before;
    for an id without a row the whole state is as before, and no listener is
    called. *)
Theorem updateRow_touches_one_row (itemID newStatus : Z) (msg : string) (st : State) :
  let st' := _updateRow itemID newStatus msg st in
  map row_id (_rows st') = map row_id (_rows st) /\
  map fileName (_rows st') = map fileName (_rows st) /\
  _queue st' = _queue st /\
  _queueProcessing st' = _queueProcessing st /\
  (forall j row,
     _rows st !! j = Some row -> row_id row <> itemID -> _rows st' !! j = Some row) /\
  (itemID ∉ map row_id (_rows st) -> st' = st).
Proof.
  intros st'. subst st'.
  destruct (find_row itemID (_rows st)) as [[i row]|] eqn:Hfind.
  - pose proof (find_row_Some _ _ _ _ Hfind) as [Hi Hid].
    rewrite (_updateRow_eq _ _ _ _ _ _ Hfind). cbn [_rows _queue _queueProcessing].
    change (map row_id ?l) with (row_id <$> l).
    change (map fileName ?l) with (fileName <$> l).
    rewrite !list_fmap_insert. cbn [row_id fileName].
    split; [|split; [|split; [done|split; [done|split]]]].
    + apply list_insert_id. by rewrite list_lookup_fmap, Hi, <- Hid.
    + apply list_insert_id. by rewrite list_lookup_fmap, Hi.
    + intros j other Hj Hother. rewrite list_lookup_insert_ne; [done|].
      intros ->. congruence.
    + intros Habsent. apply find_row_None in Habsent. congruence.
  - by rewrite (_updateRow_absent _ _ _ _ Hfind).
Qed.

Lemma updateRow_touches_one_row_witness :
  let st := _addItem pdfB (_addItem pdfA listening) in
  _rows (_updateRow 1 ROW_FAILED "x" st) !! 0%nat = _rows st !! 0%nat /\
  _updateRow 9 ROW_FAILED "x" st = st.
Proof.
  intros st.
  destruct (updateRow_touches_one_row 1 ROW_FAILED "x" st) as (_ & _ & _ & _ & Hother & _).
  destruct (updateRow_touches_one_row 9 ROW_FAILED "x" st) as (_ & _ & _ & _ & _ & Habsent).
  split.
  - apply (Hother 0%nat (mkRow 2 ROW_QUEUED "b.pdf" "")); [reflexivity|discriminate].
  - apply Habsent. change (9 ∉ [2; 1]). rewrite !not_elem_of_cons.
    repeat split; try discriminate. apply not_elem_of_nil.
Defined.

(** ** Cancelling (lines 106-112) *)


(** X7: [cancel] does not stop a pipeline in flight: when the item is enqueued
    again after the cancel while its first pipeline is still running, the
    result of that pipeline is written to the new row.  The id is then still in the
    queue although its row already counts as processed. *)
Theorem result_in_flight_lands_on_the_row_enqueued_after_cancel (E : Env)
    (item : Item) (r : Result (option Item)) (st : State) (w : World) :
  let again := _addItem item (cancel st) in
  let settled := (settle E (item_id item) r again w).1 in
  _queue settled = [item_id item] /\
  exists row,
    _rows settled = [row] /\ row_id row = item_id item /\ processed row /\
    getProcessedTotal settled = 1%nat.
Proof.
  intros again settled.
  assert (Hagain : _rows again = [mkRow (item_id item) ROW_QUEUED (getField item "title") ""]
                   /\ _queue again = [item_id item]).
  { subst again. unfold cancel. rewrite fire_emit. unfold _addItem. cbn [_rows].
    rewrite (proj2 (find_row_None _ [])) by apply not_elem_of_nil.
    by rewrite insert_row_eq. }
  destruct Hagain as [Hrows Hqueue].
  assert (Hfind : find_row (item_id item) (_rows again)
                  = Some (0%nat, mkRow (item_id item) ROW_QUEUED (getField item "title") "")).
  { rewrite Hrows. apply find_row_front. }
  subst settled. unfold settle, getProcessedTotal, processed.
  destruct r as [[newItem|]|e]; cbn [fst];
    rewrite (_updateRow_eq _ _ _ _ _ _ Hfind); cbn [_rows _queue];
    rewrite Hrows, Hqueue; (split; [done|]); eexists; (split; [reflexivity|]);
    cbn; unfold ROW_SUCCEEDED, ROW_FAILED, ROW_PROCESSING;
    (split; [done|]); (split; [lia|]); by rewrite decide_True by lia.
Qed.

(** ** What the table keeps in every reachable state *)

Lemma _updateRow_row_ids itemID newStatus msg st :
  map row_id (_rows (_updateRow itemID newStatus msg st)) = map row_id (_rows st).
Proof.
  destruct (find_row itemID (_rows st)) as [[i row]|] eqn:Hfind.
  - pose proof (find_row_Some _ _ _ _ Hfind) as [Hi Hid].
    rewrite (_updateRow_eq _ _ _ _ _ _ Hfind). cbn [_rows].
    change (map row_id ?l) with (row_id <$> l).
    rewrite list_fmap_insert. apply list_insert_id.
    by rewrite list_lookup_fmap, Hi, <- Hid.
  - by rewrite (_updateRow_absent _ _ _ _ Hfind).
Qed.

Lemma elem_of_delete_other (l : list Z) i x y :
  x ∈ l -> l !! i = Some y -> x <> y -> x ∈ delete i l.
Proof.
  intros Hx Hi Hne. rewrite <- (take_drop_middle l i y Hi) in Hx.
  rewrite delete_take_drop.
  rewrite elem_of_app, elem_of_cons in Hx. rewrite elem_of_app.
  destruct Hx as [Hx|[Hx|Hx]]; [by left|done|by right].
Qed.

Lemma _updateRow_table_ok itemID newStatus msg st :
  newStatus = ROW_PROCESSING \/ newStatus = ROW_FAILED \/ newStatus = ROW_SUCCEEDED ->
  table_ok st -> table_ok (_updateRow itemID newStatus msg st).
Proof.
  intros Hnew (Hnd & Hknown & Hqueue). unfold table_ok.
  rewrite _updateRow_row_ids, (proj1 (_updateRow_keeps _ _ _ _)).
  split; [done|]. split; [|done].
  destruct (find_row itemID (_rows st)) as [[i row]|] eqn:Hfind.
  - rewrite (_updateRow_eq _ _ _ _ _ _ Hfind). cbn [_rows].
    apply Forall_insert; [done|]. unfold known_status. cbn [status]. tauto.
  - by rewrite (_updateRow_absent _ _ _ _ Hfind).
Qed.

Lemma _addItem_table_ok item st : table_ok st -> table_ok (_addItem item st).
Proof.
  intros (Hnd & Hknown & Hqueue). split; [by apply _addItem_NoDup|].
  unfold _addItem.
  destruct (find_row (item_id item) (_rows st)) as [[i row]|] eqn:Hfind.
  - case_bool_decide; [|done].
    pose proof (find_row_Some _ _ _ _ Hfind) as [Hi Hid].
    rewrite Hid, (_deleteRow_eq _ _ _ _ Hfind), insert_row_eq. cbn [_rows _queue].
    split.
    + apply Forall_cons. split; [by left|]. by apply Forall_delete.
    + rewrite map_cons, map_delete_at. cbn [row_id].
      intros id [->|Hin]%elem_of_cons; [by left|].
      destruct (decide (id = item_id item)) as [->|Hne]; [by left|]. right.
      apply (elem_of_delete_other _ _ _ (item_id item)).
      * by apply Hqueue.
      * change (map row_id (_rows st)) with (row_id <$> _rows st).
        by rewrite list_lookup_fmap, Hi, <- Hid.
      * done.
  - rewrite insert_row_eq. cbn [_rows _queue]. split.
    + apply Forall_cons. split; [by left|done].
    + rewrite map_cons. cbn [row_id].
      intros id [->|Hin]%elem_of_cons; [by left|]. right. by apply Hqueue.
Qed.

Lemma enqueue_all_table_ok its st : table_ok st -> table_ok (enqueue_all its st).
Proof.
  revert st. induction its as [|it its IH]; intros st Hok; [done|].
  apply (IH (_addItem it st)). by apply _addItem_table_ok.
Qed.

Lemma loop_head_table_ok E offline st :
  table_ok st -> table_ok (loop_head E offline st).1.
Proof.
  intros Hok. unfold loop_head. destruct offline; [done|].
  assert (Htail : forall q, (forall id, id ∈ q -> id ∈ _queue st) -> table_ok (set_queue q st)).
  { intros q Hq. destruct Hok as (Hnd & Hknown & Hqueue).
    split; [done|]. split; [done|]. intros id Hid. by apply Hqueue, Hq. }
  destruct (_queue st) as [|itemID rest] eqn:Hq; cbn [shift no_id].
  - apply (Htail []). by intros id Hid%elem_of_nil.
  - assert (Hrest : table_ok (set_queue rest st)).
    { apply Htail. intros id Hid. by right. }
    destruct (itemID =? 0); cbn [fst]; [done|].
    apply _updateRow_table_ok; [by left|done].
Qed.

Lemma resume_table_ok E offline pc st w :
  table_ok st -> table_ok (resume E offline pc st w).1.1.
Proof.
  intros Hok. unfold resume. destruct pc as [|d|itemID].
  - destruct (_queueProcessing st); [done|].
    pose proof (loop_head_table_ok E offline (set_queueProcessing true st) Hok) as Hhead.
    by destruct (loop_head E offline (set_queueProcessing true st)).
  - pose proof (loop_head_table_ok E offline st Hok) as Hhead.
    by destruct (loop_head E offline st).
  - destruct (_processItem E itemID w) as [r w1].
    assert (Hsettled : table_ok (settle E itemID r st w1).1).
    { unfold settle. destruct r as [[newItem|]|e]; cbn [fst];
        apply _updateRow_table_ok; tauto. }
    destruct (settle E itemID r st w1) as [st1 w2].
    pose proof (loop_head_table_ok E offline st1 Hsettled) as Hhead.
    by destruct (loop_head E offline st1).
Qed.

Lemma reachable_table_ok E s : reachable E s -> table_ok (module s).
Proof.
  intros [w Hrun].
  apply (rtc_ind_r (R := step E) (fun s => table_ok (module s))
           (mkSys initial_state w [])); [| |done].
  - split; [apply NoDup_nil_2|]. split; [done|]. by intros id Hid%elem_of_nil.
  - intros s1 s2 _ Hstep Hok.
    destruct Hstep as [name cb s0|name s0|its s0|s0|
      offline before after pc s0 st' w' next Htasks Hpass]; cbn [module].
    + done.
    + done.
    + by apply enqueue_all_table_ok.
    + unfold cancel. rewrite fire_emit.
      split; [apply NoDup_nil_2|]. split; [done|]. by intros id Hid%elem_of_nil.
    + pose proof (resume_table_ok E offline pc (module s0) (world s0) Hok) as Hres.
      by rewrite Hpass in Hres.
Qed.

(** A reachable state of the module and its store: [pdfA] and [pdfB] are
    enqueued and a first call of [_processQueue] has taken [pdfB]. *)
Lemma sample_state_reachable :
  let E := env_with text_doc None [] (fun _ _ => false) (fun _ => false) in
  let st := (loop_head E false
               (set_queueProcessing true (enqueue_all [pdfA; pdfB] initial_state))).1 in
  reachable E (mkSys st world0 [AtItem 2]).
Proof.
  intros E st. exists world0.
  eapply rtc_l; [apply (step_recognizeItems E [pdfA; pdfB])|]. simpl.
  eapply rtc_l; [|apply rtc_refl].
  apply (step_resume E false [] [] AtSchema _ st world0 (Some (AtItem 2))); reflexivity.
Qed.


(** X8: However enqueues, cancels, listener changes and passes of the worker
    interleave, [getRows] holds one row per id, and every id in the queue has
    a row. *)
Theorem reachable_table_has_one_row_per_id (E : Env) (s : Sys) :
  reachable E s ->
  NoDup (map row_id (getRows (module s))) /\
  (forall id, id ∈ _queue (module s) -> id ∈ map row_id (getRows (module s))).
Proof.
  intros Hreach. apply reachable_table_ok in Hreach as (Hnd & _ & Hqueue). done.
Qed.

Lemma reachable_table_has_one_row_per_id_witness :
  let E := env_with text_doc None [] (fun _ _ => false) (fun _ => false) in
  let st := (loop_head E false
               (set_queueProcessing true (enqueue_all [pdfA; pdfB] initial_state))).1 in
  NoDup (map row_id (getRows st)) /\
  (forall id, id ∈ _queue st -> id ∈ map row_id (getRows st)).
Proof.
  intros E st.
  apply (reachable_table_has_one_row_per_id E (mkSys st world0 [AtItem 2])).
  apply sample_state_reachable.
Defined.

Lemma filter_known_status (rows : list Row) :
  Forall known_status rows ->
  filter (fun row => status row > ROW_PROCESSING) rows =
  filter (fun row => status row = ROW_FAILED \/ status row = ROW_SUCCEEDED) rows.
Proof.
  induction 1 as [|row rows Hrow _ IH]; [done|].
  rewrite !filter_cons, IH.
  unfold known_status, ROW_QUEUED, ROW_PROCESSING, ROW_FAILED, ROW_SUCCEEDED in *.
  repeat case_decide; try done; lia.
Qed.

(** X9: In every reachable state each row carries one of the four status
    constants, so that [getProcessedTotal], which counts the rows whose
    status is greater than [ROW_PROCESSING], is the number of rows that are
    Failed or Succeeded; it never exceeds [getTotal]. *)
Theorem getProcessedTotal_counts_failed_and_succeeded (E : Env) (s : Sys) :
  reachable E s ->
  Forall known_status (getRows (module s)) /\
  getProcessedTotal (module s) =
    length (filter (fun row => status row = ROW_FAILED \/ status row = ROW_SUCCEEDED)
                   (getRows (module s))) /\
  (getProcessedTotal (module s) <= getTotal (module s))%nat.
Proof.
  intros Hreach. apply reachable_table_ok in Hreach as (_ & Hknown & _).
  split; [done|]. unfold getProcessedTotal, getTotal, getRows. split.
  - by rewrite filter_known_status.
  - apply length_filter.
Qed.

Lemma getProcessedTotal_counts_failed_and_succeeded_witness :
  let E := env_with text_doc None [] (fun _ _ => false) (fun _ => false) in
  let st := (loop_head E false
               (set_queueProcessing true (enqueue_all [pdfA; pdfB] initial_state))).1 in
  (getProcessedTotal st <= getTotal st)%nat.
Proof.
  intros E st.
  apply (getProcessedTotal_counts_failed_and_succeeded E (mkSys st world0 [AtItem 2])).
  apply sample_state_reachable.
Defined.

(** ** A worker that runs to the end *)

Lemma _updateRow_rows_from itemID newStatus msg st row' :
  row' ∈ _rows (_updateRow itemID newStatus msg st) ->
  row' ∈ _rows st \/ (row_id row' = itemID /\ status row' = newStatus).
Proof.
  destruct (find_row itemID (_rows st)) as [[i row]|] eqn:Hfind.
  - rewrite (_updateRow_eq _ _ _ _ _ _ Hfind). cbn [_rows].
    intros [j Hj]%list_elem_of_lookup_1.
    apply list_lookup_insert_Some in Hj as [(_ & <- & _)|(_ & Hj)].
    + by right.
    + left. by eapply list_elem_of_lookup_2.
  - rewrite (_updateRow_absent _ _ _ _ Hfind). by left.
Qed.

Lemma _updateRow_rows_of_id itemID newStatus msg st row' :
  NoDup (map row_id (_rows st)) ->
  row' ∈ _rows (_updateRow itemID newStatus msg st) ->
  row_id row' = itemID ->
  status row' = newStatus.
Proof.
  intros Hnd Hin Hid.
  destruct (find_row itemID (_rows st)) as [[i row]|] eqn:Hfind.
  - pose proof (find_row_Some _ _ _ _ Hfind) as [Hi Hrow].
    rewrite (_updateRow_eq _ _ _ _ _ _ Hfind) in Hin. cbn [_rows] in Hin.
    apply list_elem_of_lookup_1 in Hin as [j Hj].
    apply list_lookup_insert_Some in Hj as [(_ & <- & _)|(Hne & Hj)]; [done|].
    exfalso. apply Hne.
    apply (NoDup_lookup (row_id <$> _rows st) i j itemID Hnd).
    + by rewrite list_lookup_fmap, Hi, <- Hrow.
    + by rewrite list_lookup_fmap, Hj, <- Hid.
  - rewrite (_updateRow_absent _ _ _ _ Hfind) in Hin.
    apply find_row_None in Hfind. exfalso. apply Hfind.
    rewrite <- Hid. by apply list_elem_of_fmap_2.
Qed.

Lemma filter_all {A} (P : A -> Prop) `{forall x, Decision (P x)} (l : list A) :
  Forall P l -> filter P l = l.
Proof.
  induction 1 as [|x l Hx _ IH]; [done|].
  by rewrite filter_cons_True, IH.
Qed.

(** The run of a worker from inside the loop, online and alone, over a table
    with one row per id in which every row not yet processed belongs to a
    queued id or to the id in flight. *)
Lemma run_alone_processes_all E q : forall pc st w,
  in_loop pc = true ->
  _queue st = q ->
  Forall (fun id => id <> 0) q ->
  NoDup (map row_id (_rows st)) ->
  (forall row, row ∈ _rows st ->
     processed row \/ row_id row ∈ (in_flight pc ++ q)%list) ->
  exists st' w',
    run_alone E (replicate (S (length q)) false) pc st w = (st', w', None, q) /\
    Forall processed (_rows st') /\
    map row_id (_rows st') = map row_id (_rows st) /\
    _queue st' = [] /\
    _queueProcessing st' = false.
Proof.
  (* the state in which the pass reaches the top of the loop *)
  assert (Hsettled : forall pc st w,
    in_loop pc = true ->
    NoDup (map row_id (_rows st)) ->
    (forall row, row ∈ _rows st ->
       processed row \/ row_id row ∈ (in_flight pc ++ _queue st)%list) ->
    exists st1 w1,
      (forall o, resume E o pc st w =
                 ((loop_head E o st1).1, w1, (loop_head E o st1).2)) /\
      _queue st1 = _queue st /\
      map row_id (_rows st1) = map row_id (_rows st) /\
      (forall row, row ∈ _rows st1 -> processed row \/ row_id row ∈ _queue st)).
  { intros pc st w Hpc Hnd Hacc. destruct pc as [|d|itemID]; [discriminate Hpc| |].
    - exists st, w. split; [|done].
      intros o. unfold resume. by destruct (loop_head E o st).
    - destruct (_processItem E itemID w) as [r w1] eqn:Hrun.
      destruct (settle E itemID r st w1) as [st1 w2] eqn:Hsettle.
      exists st1, w2. split; [|split; [|split]].
      + intros o. unfold resume. rewrite Hrun, Hsettle.
        by destruct (loop_head E o st1).
      + pose proof (settle_keeps E itemID r st w1) as [Hq _]. by rewrite Hsettle in Hq.
      + unfold settle in Hsettle.
        destruct r as [[newItem|]|e]; injection Hsettle as <- _;
          apply _updateRow_row_ids.
      + assert (Hterm : exists newStatus msg,
                  st1 = _updateRow itemID newStatus msg st /\ newStatus > ROW_PROCESSING).
        { unfold settle in Hsettle.
          destruct r as [[newItem|]|e]; injection Hsettle as <- _;
            eexists _, _; (split; [reflexivity|done]). }
        destruct Hterm as (newStatus & msg & -> & Hgt).
        intros row Hrow. destruct (decide (row_id row = itemID)) as [Hid|Hid].
        * left. unfold processed.
          by rewrite (_updateRow_rows_of_id _ _ _ _ _ Hnd Hrow Hid).
        * apply _updateRow_rows_from in Hrow as [Hrow|[Hrow _]]; [|done].
          destruct (Hacc row Hrow) as [Hp|[Hin|Hin]%elem_of_cons]; [by left|done|by right]. }
  induction q as [|next rest IH]; intros pc st w Hpc Hq Hids Hnd Hacc.
  - rewrite <- Hq in Hacc.
    destruct (Hsettled pc st w Hpc Hnd Hacc) as (st1 & w1 & Hpass & Hq1 & Hids1 & Hacc1).
    cbn [length replicate run_alone]. rewrite Hpass.
    rewrite (loop_head_empty E st1) by congruence. cbn [fst snd].
    eexists _, _. split; [reflexivity|]. cbn [_rows _queue _queueProcessing].
    split; [|done]. apply Forall_forall. intros row Hrow.
    destruct (Hacc1 row Hrow) as [Hp|Hin]; [done|].
    rewrite Hq in Hin. by apply elem_of_nil in Hin.
  - apply Forall_cons in Hids as [Hnext Hids]. rewrite <- Hq in Hacc.
    destruct (Hsettled pc st w Hpc Hnd Hacc) as (st1 & w1 & Hpass & Hq1 & Hids1 & Hacc1).
    change (replicate (S (length (next :: rest))) false)
      with (false :: replicate (S (length rest)) false).
    cbn [run_alone]. rewrite Hpass.
    rewrite (loop_head_next E st1 next rest) by congruence. cbn [fst snd].
    set (st2 := _updateRow next ROW_PROCESSING (getString E "recognizePDF.processing")
                           (set_queue rest st1)).
    assert (Hids2 : map row_id (_rows st2) = map row_id (_rows st)).
    { subst st2. by rewrite _updateRow_row_ids. }
    destruct (IH (AtItem next) st2 w1 eq_refl) as (st' & w' & -> & Hall & Hids' & Hq' & Hflag).
    + subst st2. by rewrite (proj1 (_updateRow_keeps _ _ _ _)).
    + done.
    + by rewrite Hids2.
    + intros row Hrow. subst st2.
      apply _updateRow_rows_from in Hrow as [Hrow|[Hrow _]].
      * destruct (Hacc1 row Hrow) as [Hp|Hin]; [by left|].
        right. rewrite Hq in Hin. done.
      * right. rewrite Hrow. by left.
    + eexists _, _. split; [reflexivity|]. split; [done|].
      split; [by rewrite Hids', Hids2|done].
Qed.

(** X10: When a worker inside the loop runs on alone and stays online, it comes to
    its end after one pass per queued id and one more; the queue is then
    empty, the flag clear, the rows are the same ids in the same order, and
    every one of them is processed, so that [getProcessedTotal] equals
    [getTotal].  This holds whatever the pipelines return or throw, for a
    table with one row per id whose unprocessed rows all belong to a queued
    id or to the id in flight. *)
Theorem finished_worker_leaves_every_row_processed (E : Env) (pc : LoopPC)
    (st : State) (w : World) :
  in_loop pc = true ->
  Forall (fun id => id <> 0) (_queue st) ->
  NoDup (map row_id (_rows st)) ->
  (forall row, row ∈ _rows st ->
     processed row \/ row_id row ∈ (in_flight pc ++ _queue st)%list) ->
  exists st' w',
    run_alone E (replicate (S (length (_queue st))) false) pc st w
      = (st', w', None, _queue st) /\
    _queue st' = [] /\
    _queueProcessing st' = false /\
    map row_id (getRows st') = map row_id (getRows st) /\
    getProcessedTotal st' = getTotal st'.
Proof.
  intros Hpc Hids Hnd Hacc.
  destruct (run_alone_processes_all E (_queue st) pc st w Hpc eq_refl Hids Hnd Hacc)
    as (st' & w' & Hrun & Hall & Hrows & Hq & Hflag).
  exists st', w'. split; [done|]. split; [done|]. split; [done|]. split; [done|].
  unfold getProcessedTotal, getTotal.
  by rewrite (filter_all (fun row => status row > ROW_PROCESSING) _ Hall).
Qed.

Lemma finished_worker_leaves_every_row_processed_witness :
  let E := env_with text_doc None [] (fun _ _ => false) (fun _ => false) in
  let st := (loop_head E false
               (set_queueProcessing true (enqueue_all [pdfA; pdfB] initial_state))).1 in
  exists st' w',
    run_alone E [false; false] (AtItem 2) st world0 = (st', w', None, [1]) /\
    _queue st' = [] /\
    _queueProcessing st' = false /\
    map row_id (getRows st') = [2; 1] /\
    getProcessedTotal st' = getTotal st'.
Proof.
  intros E st.
  apply (finished_worker_leaves_every_row_processed E (AtItem 2) st world0).
  - reflexivity.
  - repeat constructor. discriminate.
  - change (NoDup [2; 1]). apply NoDup_cons. split; [|apply NoDup_singleton].
    by intros [=]%list_elem_of_singleton.
  - intros row Hrow. right.
    change (row ∈ [mkRow 2 ROW_PROCESSING "b.pdf" "recognizePDF.processing";
                    mkRow 1 ROW_QUEUED "a.pdf" ""]) in Hrow.
    apply elem_of_cons in Hrow as [->|Hrow]; [by left|].
    apply list_elem_of_singleton in Hrow as ->. right. by left.
Defined.

(** ** The per-item pipeline (lines 243-268, 276-299, 325-349, 356-375) *)

(** X11: An id that the store no longer has, or whose item has a parent by now,
    fails with the [recognizePDF.fileNotFound] alert before anything else is
    done: the store and every log are untouched, nothing is extracted and
    nothing is posted. *)
Theorem missing_or_parented_item_is_not_found (E : Env) (itemID : Z) (w : World) :
  items w !! itemID = None \/
  (exists item, items w !! itemID = Some item /\ has_parent item = true) ->
  _processItem E itemID w = (Throw (Alert "recognizePDF.fileNotFound"), w).
Proof.
  intros [Hgone|(item & Hitem & Hparent)]; unfold _processItem, bind, getAsync.
  - by rewrite Hgone.
  - by rewrite Hitem, Hparent.
Qed.

Lemma missing_or_parented_item_is_not_found_witness :
  let E := env_with text_doc None [] (fun _ _ => false) (fun _ => false) in
  _processItem E 3 world0 = (Throw (Alert "recognizePDF.fileNotFound"), world0).
Proof.
  intros E. apply (missing_or_parented_item_is_not_found E 3 world0).
  left. reflexivity.
Defined.

(** X12: When lines 289-292 throw on the file of a top-level item, the error
    is logged and the handler removes the cache file before it throws the
    alert.  If the cache file is there at that point, the pipeline throws the
    [recognizePDF.couldNotRead] alert; if it is not (the converter wrote
    none, or line 291 had removed it already), the removal itself fails and
    the pipeline throws that error, which is no alert, so that the row shows
    the localized [recognizePDF.error] text.  Either way nothing is posted
    to the recognition service and the store is untouched. *)
Theorem unreadable_file_alert_needs_the_cache_file (E : Env) (itemID : Z)
    (item : Item) (e : Exn) (w : World) :
  items w !! itemID = Some item ->
  has_parent item = false ->
  pdfToJSON E (filePath item) MAX_PAGES = Throw e ->
  exists thrown w',
    _processItem E itemID w = (Throw thrown, w') /\
    (cacheFileAtFailure E (filePath item) MAX_PAGES = true ->
     thrown = Alert "recognizePDF.couldNotRead" /\ cacheFile w' = false) /\
    (cacheFileAtFailure E (filePath item) MAX_PAGES = false ->
     is_Alert thrown = false /\
     failure_message E thrown = getString E "recognizePDF.error") /\
    errorLog w' = (errorLog w ++ [e])%list /\
    requests w' = requests w /\
    items w' = items w /\
    collectionItems w' = collectionItems w.
Proof.
  intros Hitem Hparent Hfail.
  unfold _processItem, bind, getAsync. rewrite Hitem, Hparent.
  unfold _recognize, extractJSON, bind, debug, remove_cacheFile_if_there,
    remove_cacheFile, set_cacheFile, logError, throw.
  rewrite Hfail. cbv beta iota. cbn [cacheFile].
  destruct (cacheFileAtFailure E (filePath item) MAX_PAGES).
  - eexists _, _. split; [reflexivity|]. split; [done|]. split; [discriminate|done].
  - eexists _, _. split; [reflexivity|]. split; [discriminate|]. done.
Qed.

Lemma unreadable_file_alert_needs_the_cache_file_witness :
  let E := mkEnv (fun key => key) (fun key => key) (fun _ => true) (fun _ => JUndefined)
                 (fun _ _ => Throw (Error "pdftotext exited with 1"))
                 (fun _ _ => false)
                 (fun _ => Return None) (fun _ _ => Return []) (fun _ => Return [])
                 (fun _ _ => false) (fun _ => false) in
  exists thrown w',
    _processItem E 1 world0 = (Throw thrown, w') /\
    is_Alert thrown = false /\
    errorLog w' = [Error "pdftotext exited with 1"] /\
    requests w' = [] /\
    items w' = items world0.
Proof.
  intros E.
  destruct (unreadable_file_alert_needs_the_cache_file E 1 pdfA
              (Error "pdftotext exited with 1") world0)
    as (thrown & w' & Hrun & _ & Hgone & Hlog & Hreq & Hitems & _);
    try reflexivity.
  exists thrown, w'. split; [exact Hrun|]. split; [|done].
  apply Hgone. reflexivity.
Defined.

(** The loop of line 362 counts the pages whose third entry has a truthy
    length, provided every page has a third entry. *)
Lemma count_text_pages_counts ps : forall n,
  Forall (fun page => is_Some (page !! 2%nat)) ps ->
  count_text_pages ps n =
    Return (n + Z.of_nat (length (filter (fun page => has_text page = true) ps))).
Proof.
  induction ps as [|page ps IH]; intros n Hall.
  - simpl. f_equal. lia.
  - apply Forall_cons in Hall as [[text Htext] Hall]. simpl. rewrite Htext.
    assert (Hpage : has_text page = truthy (js_length text)).
    { unfold has_text. by rewrite Htext. }
    rewrite IH by done. rewrite filter_cons.
    destruct (truthy (js_length text)).
    + rewrite decide_True by done. f_equal. simpl length. lia.
    + rewrite decide_False by (rewrite Hpage; discriminate). done.
Qed.

Ltac run_resolver :=
  unfold resolve, resolve_by_DOI, resolve_by_ISBN, resolve_by_title;
  run_pipeline.

Lemma posts_nothing_ret {A} (a : A) : posts_nothing (ret a).
Proof. done. Qed.

Lemma posts_nothing_throw {A} e : posts_nothing (@throw A e).
Proof. done. Qed.

Lemma posts_nothing_lift {A} (r : Result A) : posts_nothing (lift r).
Proof. done. Qed.

Lemma posts_nothing_debug d : posts_nothing (debug d).
Proof. done. Qed.

Lemma posts_nothing_enter b : posts_nothing (enter b).
Proof. done. Qed.

Lemma posts_nothing_bind {A B} (m : M A) (k : A -> M B) :
  posts_nothing m -> (forall a, posts_nothing (k a)) -> posts_nothing (bind m k).
Proof.
  intros Hm Hk w. unfold bind. specialize (Hm w).
  destruct (m w) as [[a|e] w1]; simpl in *; [|done].
  by rewrite Hk.
Qed.

Lemma posts_nothing_try_catch {A} (m : M A) (h : Exn -> M A) :
  posts_nothing m -> (forall e, posts_nothing (h e)) -> posts_nothing (try_catch m h).
Proof.
  intros Hm Hh w. unfold try_catch. specialize (Hm w).
  destruct (m w) as [[a|e] w1]; simpl in *; [done|].
  by rewrite Hh.
Qed.

Lemma posts_nothing_saveTx E it : posts_nothing (saveTx E it).
Proof.
  intros w. unfold saveTx, executeTransaction, save.
  by destruct (saveFails E it).
Qed.

Lemma posts_nothing_saveTx_unawaited it : posts_nothing (saveTx_unawaited it).
Proof. done. Qed.

Create HintDb quiet.
#[local] Hint Resolve posts_nothing_ret posts_nothing_throw posts_nothing_lift
  posts_nothing_debug posts_nothing_enter posts_nothing_saveTx
  posts_nothing_saveTx_unawaited : quiet.

Ltac quiet_steps :=
  repeat first
    [ apply posts_nothing_bind; [|intros ?]
    | apply posts_nothing_try_catch; [|intros ?]
    | solve [auto with quiet]
    | progress case_match ].

Lemma resolve_posts_nothing E res lib : posts_nothing (resolve E res lib).
Proof.
  unfold resolve, resolve_by_DOI, resolve_by_ISBN, resolve_by_title,
    _promiseTranslate.
  quiet_steps.
Qed.

Lemma resolve_keeps_requests E res lib w :
  requests (resolve E res lib w).2 = requests w.
Proof. apply resolve_posts_nothing. Qed.

Lemma some_text_is_counted (ps : list Page) :
  Exists (fun page => has_text page = true) ps ->
  (0 + Z.of_nat (length (filter (fun page => has_text page = true) ps)) =? 0) = false.
Proof.
  intros Htext. apply Z.eqb_neq. apply Exists_exists in Htext as (page & Hin & Hpage).
  assert (Hin' : page ∈ filter (fun page => has_text page = true) ps).
  { apply list_elem_of_filter. done. }
  destruct (filter _ ps); [by apply elem_of_nil in Hin'|]. simpl. lia.
Qed.

(** X13: A document with text on some page is posted to the recognition service
    exactly once, whatever the service answers and whatever the resolver then
    does: the identifier lookups and the saves add no request. *)
Theorem document_with_text_is_posted_once (E : Env) (item : Item)
    (json : ExtractedDocument) (w : World) :
  pdfToJSON E (filePath item) MAX_PAGES = Return json ->
  Forall (fun page => is_Some (page !! 2%nat)) (pages json) ->
  Exists (fun page => has_text page = true) (pages json) ->
  requests (_recognize E item w).2 = (requests w ++ [json])%list.
Proof.
  intros Hjson Hthird Htext.
  unfold _recognize, extractJSON, bind, lift, debug, ret,
    remove_cacheFile_if_there, set_cacheFile.
  rewrite Hjson. cbv beta iota.
  rewrite (count_text_pages_counts _ 0 Hthird).
  rewrite (some_text_is_counted _ Htext). unfold _query, bind, post.
  destruct (recognizer E json) as [[res|]|e]; simpl; try done.
  by rewrite resolve_keeps_requests.
Qed.

Lemma document_with_text_is_posted_once_witness :
  let res := candidate (JStr "10.1000/182") (JStr "A paper") JUndefined JUndefined in
  let E := env_with text_doc (Some res) [] (fun _ _ => false) (fun _ => false) in
  requests (_recognize E pdfA world0).2 = [text_doc].
Proof.
  intros res E.
  apply (document_with_text_is_posted_once E pdfA text_doc world0).
  - reflexivity.
  - repeat constructor; by eexists.
  - apply Exists_cons_hd. reflexivity.
Defined.

(** X14: When the request to the recognition service fails, the pipeline throws
    a plain error with the fixed text "Request error"; the service's own
    error goes to the error log only, and the row message that the worker
    then shows is the localized [recognizePDF.error] text. *)
Theorem failed_request_is_a_generic_error (E : Env) (itemID : Z) (item : Item)
    (json : ExtractedDocument) (e : Exn) (w : World) :
  items w !! itemID = Some item ->
  has_parent item = false ->
  pdfToJSON E (filePath item) MAX_PAGES = Return json ->
  Forall (fun page => is_Some (page !! 2%nat)) (pages json) ->
  Exists (fun page => has_text page = true) (pages json) ->
  recognizer E json = Throw e ->
  exists w',
    _processItem E itemID w = (Throw (Error "Request error"), w') /\
    errorLog w' = (errorLog w ++ [e])%list /\
    items w' = items w /\
    entered w' = entered w /\
    failure_message E (Error "Request error") = getString E "recognizePDF.error".
Proof.
  intros Hitem Hparent Hjson Hthird Htext Hfail.
  unfold _processItem, bind, getAsync. rewrite Hitem, Hparent.
  unfold _recognize, extractJSON, bind, lift, debug, ret,
    remove_cacheFile_if_there, set_cacheFile.
  rewrite Hjson. cbv beta iota.
  rewrite (count_text_pages_counts _ 0 Hthird).
  rewrite (some_text_is_counted _ Htext). unfold _query, bind, post. rewrite Hfail.
  unfold logError, throw. eexists. split; [reflexivity|done].
Qed.

Lemma failed_request_is_a_generic_error_witness :
  let E := mkEnv (fun key => key) (fun key => key) (fun _ => true) (fun _ => JUndefined)
                 (fun _ _ => Return text_doc) (fun _ _ => true)
                 (fun _ => Throw (Error "503 Service Unavailable"))
                 (fun _ _ => Return []) (fun _ => Return [])
                 (fun _ _ => false) (fun _ => false) in
  exists w',
    _processItem E 1 world0 = (Throw (Error "Request error"), w') /\
    errorLog w' = [Error "503 Service Unavailable"] /\
    items w' = items world0 /\
    entered w' = [] /\
    failure_message E (Error "Request error") = "recognizePDF.error".
Proof.
  intros E.
  apply (failed_request_is_a_generic_error E 1 pdfA text_doc
           (Error "503 Service Unavailable") world0); try reflexivity.
  - repeat constructor; by eexists.
  - apply Exists_cons_hd. reflexivity.
Defined.

(** ** The resolver (lines 377-466) *)

Lemma DOI_stage_without_match E res lib w :
  truthy (res_doi res) = false \/
  (exists e, searchDOI E (res_doi res) lib = Throw e) \/
  searchDOI E (res_doi res) lib = Return [] ->
  exists w1,
    (if truthy (res_doi res) then resolve_by_DOI E res lib else ret None) w
      = (Return None, w1) /\
    items w1 = items w /\ collectionItems w1 = collectionItems w /\
    nextItemID w1 = nextItemID w /\ startedSaves w1 = startedSaves w.
Proof.
  intros Hno. destruct (truthy (res_doi res)) eqn:Hdoi.
  - destruct Hno as [Hno|[[e Hno]|Hno]]; [discriminate Hno| |];
      unfold resolve_by_DOI; run_pipeline; rewrite Hno; simpl;
      eexists; (split; [reflexivity|done]).
  - by exists w.
Qed.

Lemma ISBN_stage_without_match E res lib w :
  truthy (res_isbn res) = false \/
  (exists e, searchISBN E (res_isbn res) = Throw e) \/
  searchISBN E (res_isbn res) = Return [] ->
  exists w1,
    (if truthy (res_isbn res) then resolve_by_ISBN E res lib else ret None) w
      = (Return None, w1) /\
    items w1 = items w /\ collectionItems w1 = collectionItems w /\
    nextItemID w1 = nextItemID w /\ startedSaves w1 = startedSaves w.
Proof.
  intros Hno. destruct (truthy (res_isbn res)) eqn:Hisbn.
  - destruct Hno as [Hno|[[e Hno]|Hno]]; [discriminate Hno| |];
      unfold resolve_by_ISBN; run_pipeline; rewrite Hno; simpl;
      eexists; (split; [reflexivity|done]).
  - by exists w.
Qed.

(** X15: A candidate is dropped as "no match", without an error and without a
    write to the store, when it has no title and neither lookup yields an
    item: the identifier is absent, or its lookup throws, or it finds
    nothing.  A candidate with only a DOI whose lookup fails is such a
    candidate. *)
Theorem candidate_without_title_or_match_is_no_match (E : Env)
    (res : RecognitionResult) (lib : Z) (w : World) :
  truthy (res_doi res) = false \/
  (exists e, searchDOI E (res_doi res) lib = Throw e) \/
  searchDOI E (res_doi res) lib = Return [] ->
  truthy (res_isbn res) = false \/
  (exists e, searchISBN E (res_isbn res) = Throw e) \/
  searchISBN E (res_isbn res) = Return [] ->
  truthy (res_title res) = false ->
  exists w',
    resolve E res lib w = (Return None, w') /\
    items w' = items w /\
    collectionItems w' = collectionItems w /\
    nextItemID w' = nextItemID w /\
    requests w' = requests w.
Proof.
  intros HDOI HISBN Htitle.
  destruct (DOI_stage_without_match E res lib w HDOI)
    as (w1 & Hrun1 & Hi1 & Hc1 & Hn1 & _).
  destruct (ISBN_stage_without_match E res lib w1 HISBN)
    as (w2 & Hrun2 & Hi2 & Hc2 & Hn2 & _).
  exists w2.
  assert (Hrun : resolve E res lib w = (Return None, w2)).
  { unfold resolve, bind. by rewrite Hrun1, Hrun2, Htitle. }
  split; [done|]. split; [congruence|]. split; [congruence|]. split; [congruence|].
  pose proof (resolve_keeps_requests E res lib w) as Hreq. by rewrite Hrun in Hreq.
Qed.

Lemma candidate_without_title_or_match_is_no_match_witness :
  let E := env_with text_doc None [] (fun _ _ => false) (fun _ => false) in
  let res := candidate (JStr "10.1000/182") JUndefined JUndefined JUndefined in
  exists w',
    resolve E res 1 world0 = (Return None, w') /\
    items w' = items world0 /\
    collectionItems w' = collectionItems world0 /\
    nextItemID w' = nextItemID world0 /\
    requests w' = requests world0.
Proof.
  intros E res. apply (candidate_without_title_or_match_is_no_match E res 1 world0).
  - right. left. by eexists.
  - left. reflexivity.
  - reflexivity.
Defined.

Lemma read_authors_null entries :
  None ∈ entries -> read_authors entries = Throw (Error "TypeError: author is null").
Proof.
  induction entries as [|[author|] entries IH]; intros Hin.
  - by apply elem_of_nil in Hin.
  - apply elem_of_cons in Hin as [[=]|Hin]. simpl. by rewrite IH.
  - done.
Qed.

(** X16: A candidate with a title whose [authors] cannot be iterated, or
    holds a [null], makes the title branch throw before it saves anything:
    when no lookup handed back an item before, the resolver throws an error
    that is no alert, the store is as it was and no save has been started,
    although the candidate had a title to build an item from. *)
Theorem title_branch_fails_on_missing_or_null_authors (E : Env)
    (res : RecognitionResult) (lib : Z) (w : World) :
  truthy (res_doi res) = false \/
  (exists e, searchDOI E (res_doi res) lib = Throw e) \/
  searchDOI E (res_doi res) lib = Return [] ->
  truthy (res_isbn res) = false \/
  (exists e, searchISBN E (res_isbn res) = Throw e) \/
  searchISBN E (res_isbn res) = Return [] ->
  truthy (res_title res) = true ->
  res_authors res = None \/
  (exists entries, res_authors res = Some entries /\ None ∈ entries) ->
  exists e w',
    resolve E res lib w = (Throw e, w') /\
    is_Alert e = false /\
    items w' = items w /\
    collectionItems w' = collectionItems w /\
    startedSaves w' = startedSaves w.
Proof.
  intros HDOI HISBN Htitle Hauthors.
  destruct (DOI_stage_without_match E res lib w HDOI)
    as (w1 & Hrun1 & Hi1 & Hc1 & Hn1 & Hs1).
  destruct (ISBN_stage_without_match E res lib w1 HISBN)
    as (w2 & Hrun2 & Hi2 & Hc2 & Hn2 & Hs2).
  unfold resolve, bind. rewrite Hrun1, Hrun2, Htitle.
  unfold resolve_by_title. run_pipeline.
  destruct Hauthors as [->|(entries & -> & Hnull)].
  - eexists _, _. split; [reflexivity|]. simpl. split; [done|].
    split; [congruence|]. split; congruence.
  - rewrite (read_authors_null _ Hnull).
    eexists _, _. split; [reflexivity|]. simpl. split; [done|].
    split; [congruence|]. split; congruence.
Qed.

Lemma title_branch_fails_on_missing_or_null_authors_witness :
  let E := env_with text_doc None [] (fun _ _ => false) (fun _ => false) in
  let res :=
    mkRes JUndefined JUndefined (JStr "A paper") JUndefined
          (Some [Some (mkAuthor (JStr "Ada") (JStr "Lovelace")); None])
          JUndefined JUndefined JUndefined JUndefined JUndefined
          JUndefined JUndefined JUndefined JUndefined JUndefined in
  exists e w',
    resolve E res 1 world0 = (Throw e, w') /\
    is_Alert e = false /\
    items w' = items world0 /\
    collectionItems w' = collectionItems world0 /\
    startedSaves w' = startedSaves world0.
Proof.
  intros E res.
  apply (title_branch_fails_on_missing_or_null_authors E res 1 world0).
  - left. reflexivity.
  - left. reflexivity.
  - reflexivity.
  - right. eexists. split; [reflexivity|]. right. by left.
Defined.

Lemma creators_setField_if c name v it :
  creators (setField_if c name v it) = creators it.
Proof. unfold setField_if. by destruct (truthy c). Qed.

(** X17: The item that the title branch builds, for every candidate: a book
    section when the type hint is the string 'book-chapter' and a journal
    article otherwise; the candidate's title; the catalog mark 'Zotero'; one
    creator per author, in order, each typed 'author'; not yet saved.  A book
    section never gets the journal fields and a journal article never gets
    the book fields. *)
Theorem title_branch_builds_the_item (res : RecognitionResult) (authors : list Author) :
  let newItem := title_item res authors in
  itemType newItem =
    (if bool_decide (res_type res = JStr "book-chapter")
     then "bookSection" else "journalArticle") /\
  fields newItem !! "title" = Some (res_title res) /\
  fields newItem !! "libraryCatalog" = Some (JStr "Zotero") /\
  map firstName (creators newItem) = map author_firstName authors /\
  map lastName (creators newItem) = map author_lastName authors /\
  Forall (fun c => creatorType c = "author") (creators newItem) /\
  item_id newItem = 0 /\
  (res_type res = JStr "book-chapter" ->
   fields newItem !! "issue" = None /\ fields newItem !! "issn" = None /\
   fields newItem !! "publicationTitle" = None) /\
  (res_type res <> JStr "book-chapter" ->
   fields newItem !! "bookTitle" = None /\ fields newItem !! "publisher" = None).
Proof.
  intros newItem. subst newItem. unfold title_item, js_strict_eq.
  assert (Hcreators : forall it cs, creators (setCreators cs it) = cs) by done.
  assert (Hfields : forall it cs, fields (setCreators cs it) = fields it) by done.
  assert (Htype : forall it cs, itemType (setCreators cs it) = itemType it) by done.
  assert (Hid : forall name v it, item_id (setField name v it) = item_id it) by done.
  assert (Hidif : forall c name v it, item_id (setField_if c name v it) = item_id it).
  { intros c name v it. unfold setField_if. by destruct (truthy c). }
  assert (Hcr : forall name v it, creators (setField name v it) = creators it) by done.
  case_bool_decide as Hbook; simpl String.eqb; cbv iota.
  all: rewrite ?Hid, ?Hidif, ?Hcr, ?creators_setField_if, ?Hcreators.
  all: item_fields; rewrite ?Htype, ?Hfields; item_fields.
  all: rewrite !map_map; cbn [firstName lastName].
  all: repeat (case_decide; [discriminate|]).
  all: repeat (rewrite bool_decide_eq_false_2 by discriminate).
  all: rewrite ?andb_false_r.
  all: rewrite ?decide_True by done.
  all: split; [done|]; split; [done|]; split; [done|]; split; [done|]; split; [done|].
  all: split; [by apply Forall_map, Forall_true|].
  all: split; [done|]; split; [intros Ht|intros Ht]; try done.
Qed.

Lemma title_branch_builds_the_item_witness :
  let res := mkRes JUndefined JUndefined (JStr "A chapter") (JStr "book-chapter")
                   (Some []) JUndefined JUndefined JUndefined JUndefined JUndefined
                   (JStr "3") JUndefined JUndefined (JStr "A book") (JStr "A press") in
  fields (title_item res []) !! "issue" = None /\
  fields (title_item res []) !! "issn" = None /\
  fields (title_item res []) !! "publicationTitle" = None.
Proof.
  intros res.
  destruct (title_branch_builds_the_item res []) as (_ & _ & _ & _ & _ & _ & _ & Hbook & _).
  apply Hbook. reflexivity.
Defined.

Lemma backfill_abstract_frame E res it :
  item_id (backfill_abstract E res it) = item_id it /\
  itemType (backfill_abstract E res it) = itemType it /\
  libraryID (backfill_abstract E res it) = libraryID it /\
  creators (backfill_abstract E res it) = creators it /\
  (forall key, key <> "abstractNote" ->
     fields (backfill_abstract E res it) !! key = fields it !! key).
Proof.
  unfold backfill_abstract. destruct (_ && _); [|done].
  split; [done|]. split; [done|]. split; [done|]. split; [done|].
  intros key Hkey. rewrite fields_setField. by rewrite decide_False by done.
Qed.

(** X18: Of the items that a DOI lookup finds, the first is the result and
    the rest are ignored; the ISBN lookup and the title branch do not run.
    The result is that item as it was found (id, type, library, creators and
    every field other than [abstractNote]); its save is started and not
    awaited. *)
Theorem first_DOI_match_is_the_result (E : Env) (res : RecognitionResult)
    (lib : Z) (w : World) (first : Item) (rest : list Item) :
  truthy (res_doi res) = true ->
  searchDOI E (res_doi res) lib = Return (first :: rest) ->
  exists newItem w',
    resolve E res lib w = (Return (Some newItem), w') /\
    entered w' = (entered w ++ [ByDOI])%list /\
    item_id newItem = item_id first /\
    itemType newItem = itemType first /\
    libraryID newItem = libraryID first /\
    creators newItem = creators first /\
    (forall key, key <> "abstractNote" -> fields newItem !! key = fields first !! key) /\
    startedSaves w' = (startedSaves w ++ [newItem])%list.
Proof.
  intros Hdoi Hfound.
  destruct (backfill_abstract_frame E res first) as (Hid & Htype & Hlib & Hcr & Hfields).
  exists (backfill_abstract E res first).
  unfold resolve, bind at 1. rewrite Hdoi.
  unfold resolve_by_DOI. run_pipeline. rewrite Hfound. simpl.
  eexists. split; [reflexivity|]. done.
Qed.

Lemma first_DOI_match_is_the_result_witness :
  let found :=
    setField "title" (JStr "A paper") (set_item_id 50 (new_Item "journalArticle")) in
  let other := set_item_id 51 (new_Item "journalArticle") in
  let E := env_with text_doc None [found; other] (fun _ _ => false) (fun _ => false) in
  let res :=
    mkRes (JStr "10.1000/182") (JStr "9780000000002") (JStr "Another title") JUndefined
          (Some []) (JStr "An abstract") JUndefined JUndefined JUndefined JUndefined
          JUndefined JUndefined JUndefined JUndefined JUndefined in
  exists newItem w',
    resolve E res 1 world0 = (Return (Some newItem), w') /\
    entered w' = [ByDOI] /\
    item_id newItem = 50 /\
    fields newItem !! "title" = Some (JStr "A paper").
Proof.
  intros found other E res.
  destruct (first_DOI_match_is_the_result E res 1 world0 found [other])
    as (newItem & w' & Hrun & Hent & Hid & _ & _ & _ & Hfields & _);
    try reflexivity.
  exists newItem, w'. split; [exact Hrun|]. split; [exact Hent|].
  split; [exact Hid|].
  rewrite Hfields by discriminate. reflexivity.
Defined.

Lemma DOI_stage_leaves_no_trace E res lib w :
  truthy (res_doi res) = false \/
  (exists e, searchDOI E (res_doi res) lib = Throw e) \/
  searchDOI E (res_doi res) lib = Return [] ->
  exists w1,
    (if truthy (res_doi res) then resolve_by_DOI E res lib else ret None) w
      = (Return None, w1) /\
    items w1 = items w /\ nextItemID w1 = nextItemID w /\
    startedSaves w1 = startedSaves w /\
    entered w1 = (entered w ++ if truthy (res_doi res) then [ByDOI] else [])%list.
Proof.
  intros Hno. destruct (truthy (res_doi res)) eqn:Hdoi.
  - destruct Hno as [Hno|[[e Hno]|Hno]]; [discriminate Hno| |];
      unfold resolve_by_DOI; run_pipeline; rewrite Hno; simpl;
      eexists; (split; [reflexivity|done]).
  - exists w. by rewrite app_nil_r.
Qed.

(** X19: When the DOI gave nothing (no DOI, or a lookup that threw or found
    nothing), the first ISBN match is the result and the title branch does
    not run.  The item is the match as translated, placed in the library of
    the source document.  Its save is started and not awaited: when the
    resolver returns, the item has the id it was translated with (none) and
    the store has not been written. *)
Theorem first_ISBN_match_goes_to_the_source_library (E : Env)
    (res : RecognitionResult) (lib : Z) (w : World) (first : Item) (rest : list Item) :
  truthy (res_doi res) = false \/
  (exists e, searchDOI E (res_doi res) lib = Throw e) \/
  searchDOI E (res_doi res) lib = Return [] ->
  truthy (res_isbn res) = true ->
  searchISBN E (res_isbn res) = Return (first :: rest) ->
  exists newItem w',
    resolve E res lib w = (Return (Some newItem), w') /\
    libraryID newItem = lib /\
    item_id newItem = item_id first /\
    itemType newItem = itemType first /\
    creators newItem = creators first /\
    (forall key, key <> "abstractNote" -> fields newItem !! key = fields first !! key) /\
    entered w' =
      (entered w ++ (if truthy (res_doi res) then [ByDOI] else []) ++ [ByISBN])%list /\
    startedSaves w' = (startedSaves w ++ [newItem])%list /\
    items w' = items w.
Proof.
  intros HDOI Hisbn Hfound.
  destruct (DOI_stage_leaves_no_trace E res lib w HDOI)
    as (w1 & Hrun1 & Hi1 & Hn1 & Hs1 & He1).
  destruct (backfill_abstract_frame E res (set_libraryID lib first))
    as (Hid & Htype & Hlib & Hcr & Hfields).
  exists (backfill_abstract E res (set_libraryID lib first)).
  unfold resolve, bind at 1. rewrite Hrun1. unfold bind at 1. rewrite Hisbn.
  unfold resolve_by_ISBN. run_pipeline. rewrite Hfound. simpl.
  eexists. split; [reflexivity|]. simpl.
  rewrite Hi1, Hs1, He1, <- !app_assoc. done.
Qed.

Lemma first_ISBN_match_goes_to_the_source_library_witness :
  let book := setField "title" (JStr "A book") (new_Item "book") in
  let E := mkEnv (fun key => key) (fun key => key) (fun _ => true) (fun _ => JUndefined)
                 (fun _ _ => Return text_doc) (fun _ _ => true) (fun _ => Return None)
                 (fun _ _ => Throw (Error "DOI lookup failed")) (fun _ => Return [book])
                 (fun _ _ => false) (fun _ => false) in
  let res :=
    mkRes (JStr "10.1000/182") (JStr "9780000000002") (JStr "A title") JUndefined
          (Some []) JUndefined JUndefined JUndefined JUndefined JUndefined
          JUndefined JUndefined JUndefined JUndefined JUndefined in
  exists newItem w',
    resolve E res 1 world0 = (Return (Some newItem), w') /\
    libraryID newItem = 1 /\
    item_id newItem = 0 /\
    entered w' = [ByDOI; ByISBN] /\
    items w' = items world0.
Proof.
  intros book E res.
  destruct (first_ISBN_match_goes_to_the_source_library E res 1 world0 book [])
    as (newItem & w' & Hrun & Hlib & Hid & _ & _ & _ & Hent & _ & Hitems).
  - right. left. by eexists.
  - reflexivity.
  - reflexivity.
  - exists newItem, w'. done.
Defined.

(** ** The transaction of [_processItem] (lines 253-262) *)

(** X20: The transaction commits exactly when none of its writes fails: every
    copy into a collection of the source document and the save of the
    re-parented document. *)
Theorem transaction_commits_iff_no_write_fails (E : Env) (item newItem : Item)
    (itemCollections : list Z) (w : World) :
  (exists w',
     executeTransaction (materialize E item newItem itemCollections) w = (Return tt, w')) <->
  (forall c, c ∈ itemCollections -> addItemFails E c (item_id newItem) = false) /\
  saveFails E (set_parentID (item_id newItem) item) = false.
Proof.
  unfold executeTransaction, materialize, bind. split.
  - intros [w' Hrun].
    destruct (addToCollections E itemCollections (item_id newItem) w)
      as [[[]|e] w1] eqn:Hadd; [|discriminate Hrun].
    split.
    + apply (addToCollections_Return_iff E itemCollections (item_id newItem) w). eauto.
    + unfold save in Hrun.
      by destruct (saveFails E (set_parentID (item_id newItem) item)).
  - intros [Hall Hsave].
    apply (addToCollections_Return_iff E itemCollections (item_id newItem) w) in Hall
      as [w1 Hadd].
    rewrite Hadd. unfold save. rewrite Hsave. unfold ret. eexists. reflexivity.
Qed.

(** ** The worker on a settled pipeline (lines 213-221) *)



(** ** Deleting a row (lines 176-189) *)

(** X22: In a table with one row per id, [_deleteRow] leaves no row with the id,
    keeps every other row, and makes [getTotal] one less; the [rowdeleted]
    listener is called once with the id.  For an id without a row it changes
    nothing and calls no listener. *)
Theorem deleteRow_removes_the_row_of_the_id (itemID : Z) (st : State) :
  NoDup (map row_id (_rows st)) ->
  let st' := _deleteRow itemID st in
  (itemID ∉ map row_id (_rows st')) /\
  (forall row, row ∈ _rows st -> row_id row <> itemID -> row ∈ _rows st') /\
  _queue st' = _queue st /\
  (itemID ∈ map row_id (_rows st) ->
   S (getTotal st') = getTotal st /\
   fired st' = (fired st ++ emit (_listeners st) "rowdeleted" (PDelete itemID))%list) /\
  (itemID ∉ map row_id (_rows st) -> st' = st).
Proof.
  intros Hnd st'. subst st'.
  destruct (find_row itemID (_rows st)) as [[i row]|] eqn:Hfind.
  - pose proof (find_row_Some _ _ _ _ Hfind) as [Hi Hid].
    assert (Hids : (row_id <$> _rows st) !! i = Some itemID).
    { by rewrite list_lookup_fmap, Hi, <- Hid. }
    rewrite (_deleteRow_eq _ _ _ _ Hfind). cbn [_rows _queue fired].
    split; [|split; [|split; [done|split]]].
    + rewrite map_delete_at.
      pose proof (NoDup_delete_at _ i itemID Hnd Hids) as Hfresh.
      by apply NoDup_cons in Hfresh as [Hfresh _].
    + intros other Hother Hne.
      apply list_elem_of_lookup_1 in Hother as [j Hj].
      apply list_elem_of_lookup. destruct (decide (j < i)%nat) as [Hlt|Hge].
      * exists j. by rewrite list_lookup_delete_lt.
      * destruct j as [|j]; [assert (i = 0%nat) as -> by lia; congruence|].
        destruct (decide (S j = i)) as [<-|Hji]; [congruence|].
        exists j. rewrite list_lookup_delete_ge by lia. done.
    + intros _. split; [|done]. unfold getTotal. cbn [_rows].
      rewrite length_delete by eauto. apply lookup_lt_Some in Hi. lia.
    + intros Habsent. apply find_row_None in Habsent. congruence.
  - unfold _deleteRow. rewrite Hfind.
    apply find_row_None in Hfind.
    split; [done|]. split; [done|]. split; [done|]. split; done.
Qed.

Lemma deleteRow_removes_the_row_of_the_id_witness :
  let st := _addItem pdfB (_addItem pdfA listening) in
  (1 ∉ map row_id (_rows (_deleteRow 1 st))) /\
  S (getTotal (_deleteRow 1 st)) = getTotal st.
Proof.
  intros st.
  destruct (deleteRow_removes_the_row_of_the_id 1 st) as (Hgone & _ & _ & Hless & _).
  - change (NoDup [2; 1]). apply NoDup_cons. split; [|apply NoDup_singleton].
    by intros [=]%list_elem_of_singleton.
  - split; [exact Hgone|]. apply Hless.
    change (1 ∈ [2; 1]). right. by left.
Defined.
